(** * upload_icons.py: icon download and upload for an AWTRIX device

    A shallow embedding of [upload_icons.py] and the properties of its
    address validator, name sanitizer, icon fetcher, device uploader,
    per-icon pipeline and command-line entry point.

    Conventions of the embedding.
    - A Python [str] is a [string] whose characters are the code points
      0..255; on that range [\d] is exactly [0-9] and the [int] and
      [str.strip] white space sets are the ones given below.  [bytes] is a
      [string] of 8-bit values; [str.encode()] is UTF-8.
    - [re.match] on the anchored patterns of the source is language
      membership, with Python's [$]: end of string, or just before one
      final newline.
    - Network, console and randomness are an environment ([Env]); effectful
      functions thread the chronological event trace and either return a
      value or raise one of the exception classes the handlers tell apart.
    - The network is seen at the level of the script: one [Opened] event is
      one call of [urllib.request.urlopen], and an [outcome] is what that
      call ends with, after the redirects the default opener follows on its
      own inside the call.
    - [main] starts from the namespace [parser.parse_args()] returned; a
      command line that argparse itself turns down never reaches it. *)

From Stdlib Require Import String Ascii List ZArith NArith Bool Lia.
From Stdlib Require Import DecimalString.
Import ListNotations.

Open Scope list_scope.
Open Scope string_scope.

Definition str := string.
Definition bytes := string.

(** ** Characters and strings *)

Definition ord (c : ascii) : N := N_of_ascii c.

Definition LF : ascii := ascii_of_N 10.
Definition CR : ascii := ascii_of_N 13.

Definition is_empty (s : string) : bool :=
  match s with EmptyString => true | String _ _ => false end.

Fixpoint string_map (f : ascii -> ascii) (s : string) : string :=
  match s with
  | EmptyString => EmptyString
  | String c r => String (f c) (string_map f r)
  end.

Fixpoint string_forallb (p : ascii -> bool) (s : string) : bool :=
  match s with
  | EmptyString => true
  | String c r => p c && string_forallb p r
  end.

(** [s.split(sep)] for a one-character separator: always at least one
    field, empty fields kept. *)
Fixpoint split (sep : ascii) (s : string) : list string :=
  match s with
  | EmptyString => [EmptyString]
  | String c r =>
      if Ascii.eqb c sep then EmptyString :: split sep r
      else match split sep r with
           | [] => [String c EmptyString]
           | f :: fs => String c f :: fs
           end
  end.

(** [s.lstrip(chars)], [s.rstrip(chars)] and [s.strip(chars)], the set of
    characters given as a predicate. *)
Fixpoint lstrip (p : ascii -> bool) (s : string) : string :=
  match s with
  | EmptyString => EmptyString
  | String c r => if p c then lstrip p r else s
  end.

Fixpoint rstrip (p : ascii -> bool) (s : string) : string :=
  match s with
  | EmptyString => EmptyString
  | String c r =>
      match rstrip p r with
      | EmptyString => if p c then EmptyString else String c EmptyString
      | r' => String c r'
      end
  end.

Definition strip (p : ascii -> bool) (s : string) : string :=
  rstrip p (lstrip p s).

(** ** Regular expressions *)

(** A character set [[...]] is a list of inclusive ranges. *)
Definition charset := list (ascii * ascii).

Definition in_range (c : ascii) (r : ascii * ascii) : bool :=
  (ord (fst r) <=? ord c)%N && (ord c <=? ord (snd r))%N.

Definition in_set (cs : charset) (c : ascii) : bool :=
  existsb (in_range c) cs.

Inductive regex : Type :=
| Never : regex
| Eps : regex
| Lit : ascii -> regex
| InSet : charset -> regex
| NotInSet : charset -> regex
| Seq : regex -> regex -> regex
| Alt : regex -> regex -> regex
| Star : regex -> regex.

(** [r?], [r{n}], [r{0,n}] and [r{lo,hi}]. *)
Definition Opt (r : regex) : regex := Alt r Eps.

Fixpoint Times (n : nat) (r : regex) : regex :=
  match n with
  | O => Eps
  | S k => Seq r (Times k r)
  end.

Fixpoint UpTo (n : nat) (r : regex) : regex :=
  match n with
  | O => Eps
  | S k => Opt (Seq r (UpTo k r))
  end.

Definition Rep (lo hi : nat) (r : regex) : regex :=
  Seq (Times lo r) (UpTo (hi - lo) r).

(** The language of a regular expression. *)
Inductive lang : regex -> string -> Prop :=
| L_eps : lang Eps EmptyString
| L_lit c : lang (Lit c) (String c EmptyString)
| L_set cs c : in_set cs c = true -> lang (InSet cs) (String c EmptyString)
| L_nset cs c : in_set cs c = false -> lang (NotInSet cs) (String c EmptyString)
| L_seq r1 r2 s1 s2 : lang r1 s1 -> lang r2 s2 -> lang (Seq r1 r2) (s1 ++ s2)
| L_alt_l r1 r2 s : lang r1 s -> lang (Alt r1 r2) s
| L_alt_r r1 r2 s : lang r2 s -> lang (Alt r1 r2) s
| L_star_nil r : lang (Star r) EmptyString
| L_star_cons r s1 s2 : lang r s1 -> lang (Star r) s2 -> lang (Star r) (s1 ++ s2).

(** The matcher: Brzozowski derivatives. *)
Fixpoint nullable (r : regex) : bool :=
  match r with
  | Never => false
  | Eps => true
  | Lit _ => false
  | InSet _ => false
  | NotInSet _ => false
  | Seq r1 r2 => nullable r1 && nullable r2
  | Alt r1 r2 => nullable r1 || nullable r2
  | Star _ => true
  end.

Fixpoint deriv (c : ascii) (r : regex) : regex :=
  match r with
  | Never => Never
  | Eps => Never
  | Lit d => if Ascii.eqb c d then Eps else Never
  | InSet cs => if in_set cs c then Eps else Never
  | NotInSet cs => if in_set cs c then Never else Eps
  | Seq r1 r2 =>
      if nullable r1 then Alt (Seq (deriv c r1) r2) (deriv c r2)
      else Seq (deriv c r1) r2
  | Alt r1 r2 => Alt (deriv c r1) (deriv c r2)
  | Star r1 => Seq (deriv c r1) (Star r1)
  end.

Fixpoint matches (r : regex) (s : string) : bool :=
  match s with
  | EmptyString => nullable r
  | String c t => matches (deriv c r) t
  end.

(** [s] without one final newline, when it has one. *)
Fixpoint chomp (s : string) : option string :=
  match s with
  | EmptyString => None
  | String c EmptyString => if Ascii.eqb c LF then Some EmptyString else None
  | String c r =>
      match chomp r with
      | Some r' => Some (String c r')
      | None => None
      end
  end.

(** [bool(re.match('^' r '$', s))]: the whole of [s] matches [r], or [s] is
    a match of [r] followed by one newline. *)
Definition re_match (r : regex) (s : string) : bool :=
  matches r s ||
  match chomp s with
  | Some s' => matches r s'
  | None => false
  end.

(** [re.sub(r, repl, s)] for a pattern [r] whose matches are single
    characters: every matching character is replaced by [repl]. *)
Fixpoint re_sub1 (r : regex) (repl : string) (s : string) : string :=
  match s with
  | EmptyString => EmptyString
  | String c t =>
      if matches r (String c EmptyString) then repl ++ re_sub1 r repl t
      else String c (re_sub1 r repl t)
  end.

(** ** Python built-ins used by the script *)

Fixpoint char_in (chars : string) (c : ascii) : bool :=
  match chars with
  | EmptyString => false
  | String d r => Ascii.eqb c d || char_in r c
  end.

(** [s.strip(chars)]. *)
Definition str_strip (chars : string) (s : str) : str := strip (char_in chars) s.

Definition one_of (l : list N) (c : ascii) : bool :=
  existsb (N.eqb (ord c)) l.

(** White space of [str.strip()] and [str.isspace()]. *)
Definition is_space (c : ascii) : bool :=
  one_of [9; 10; 11; 12; 13; 28; 29; 30; 31; 32; 133; 160]%N c.

(** White space skipped by [int(str)]. *)
Definition is_int_space (c : ascii) : bool :=
  one_of [9; 10; 11; 12; 13; 32; 133; 160]%N c.

(** [s.strip()]. *)
Definition str_strip_ws (s : str) : str := strip is_space s.

(** [\d] on the code points below 256, the characters of [str] here: the
    ten ASCII digits.  The decimal digits of other scripts, which [\d] and
    [int] also take, lie above that range. *)
Definition digit : charset := [("0", "9")]%char.

Definition is_digit (c : ascii) : bool := in_set digit c.

Definition digit_val (c : ascii) : Z := Z.of_N (ord c) - 48.

(** The digits of a decimal literal after its first digit: single
    underscores are allowed between digits. *)
Fixpoint int_digits (acc : Z) (s : string) : option Z :=
  match s with
  | EmptyString => Some acc
  | String c r =>
      if is_digit c then int_digits (acc * 10 + digit_val c) r
      else if Ascii.eqb c "_" then
        match r with
        | String d r' =>
            if is_digit d then int_digits (acc * 10 + digit_val d) r' else None
        | EmptyString => None
        end
      else None
  end.

Definition int_unsigned (s : string) : option Z :=
  match s with
  | String d r => if is_digit d then int_digits (digit_val d) r else None
  | EmptyString => None
  end.

Definition int_signed (s : string) : option Z :=
  match s with
  | String "+" r => int_unsigned r
  | String "-" r => option_map Z.opp (int_unsigned r)
  | t => int_unsigned t
  end.

(** [int(s)] in base 10; [None] is [ValueError].  (The interpreter's limit
    on the number of digits of a conversion is not modelled.) *)
Definition py_int (s : str) : option Z := int_signed (strip is_int_space s).

(** [str(n)] for an integer. *)
Definition str_of_Z (n : Z) : str := NilZero.string_of_int (Z.to_int n).

(** [s.encode()]: UTF-8 of the code points below 256. *)
Fixpoint encode (s : str) : bytes :=
  match s with
  | EmptyString => EmptyString
  | String c r =>
      if (ord c <? 128)%N then String c (encode r)
      else String (ascii_of_N (192 + ord c / 64))
             (String (ascii_of_N (128 + ord c mod 64)) (encode r))
  end.

(** ** validate_ip_or_hostname *)

Definition alnum : charset := [("a", "z"); ("A", "Z"); ("0", "9")]%char.

Definition alnum_hyphen : charset :=
  [("a", "z"); ("A", "Z"); ("0", "9"); ("-", "-")]%char.

(** [^(\d{1,3}\.){3}\d{1,3}$] *)
Definition ipv4_pattern : regex :=
  Seq (Times 3 (Seq (Rep 1 3 (InSet digit)) (Lit ".")))
      (Rep 1 3 (InSet digit)).

(** [[a-zA-Z0-9]([a-zA-Z0-9\-]{0,61}[a-zA-Z0-9])?] *)
Definition label_pattern : regex :=
  Seq (InSet alnum) (Opt (Seq (Rep 0 61 (InSet alnum_hyphen)) (InSet alnum))).

(** The two alternatives of [hostname_pattern], each between [^] and [$]. *)
Definition hostname_pattern_1 : regex :=
  Seq label_pattern (Star (Seq (Lit ".") label_pattern)).

Definition hostname_pattern_2 : regex := InSet alnum.

Definition match_hostname_pattern (s : str) : bool :=
  re_match hostname_pattern_1 s || re_match hostname_pattern_2 s.

(** [all(0 <= int(octet) <= 255 for octet in octets)], evaluated left to
    right and stopping at the first false; [None] is a [ValueError]. *)
Fixpoint all_octets (octets : list str) : option bool :=
  match octets with
  | [] => Some true
  | octet :: rest =>
      match py_int octet with
      | None => None
      | Some n => if (0 <=? n)%Z && (n <=? 255)%Z then all_octets rest
                  else Some false
      end
  end.

Definition validate_ip_or_hostname (address : str) : bool :=
  if is_empty address then false
  else if existsb (String.eqb address) ["localhost"; "127.0.0.1"] then true
  else if re_match ipv4_pattern address then
    match all_octets (split "." address) with
    | Some b => b
    | None => false
    end
  else match_hostname_pattern address.

(** ** sanitize_icon_name *)

Definition safe_chars : charset :=
  [("a", "z"); ("A", "Z"); ("0", "9"); ("-", "-"); ("_", "_")]%char.

Definition sanitize_icon_name (name : str) : str :=
  let sanitized := re_sub1 (NotInSet safe_chars) "_" name in
  let sanitized := str_strip "_" sanitized in
  if is_empty sanitized then "icon" else sanitized.

(** ** Exceptions, events and the environment *)

(** The exception classes the script's handlers tell apart.
    [urllib.error.HTTPError] is a subclass of [urllib.error.URLError], which
    is a subclass of [OSError]; [http.client.HTTPException] (a malformed or
    truncated reply, an address the HTTP client refuses) is none of them. *)
Inductive exn : Type :=
| HTTPError (code : Z) (msg : str)
| URLError (reason : str)
| OSError (msg : str)
| ValueError (msg : str)
| HTTPException (msg : str)
| EOFError.

Definition is_HTTPError (e : exn) : bool :=
  match e with HTTPError _ _ => true | _ => false end.

Definition is_URLError (e : exn) : bool :=
  match e with HTTPError _ _ | URLError _ => true | _ => false end.

Definition is_OSError (e : exn) : bool :=
  match e with HTTPError _ _ | URLError _ | OSError _ => true | _ => false end.

Definition is_ValueError (e : exn) : bool :=
  match e with ValueError _ => true | _ => false end.

(** [str(e)]. *)
Definition exn_str (e : exn) : str :=
  match e with
  | HTTPError code msg => "HTTP Error " ++ str_of_Z code ++ ": " ++ msg
  | URLError reason => "<urlopen error " ++ reason ++ ">"
  | OSError msg => msg
  | ValueError msg => msg
  | HTTPException msg => msg
  | EOFError => "EOF when reading a line"
  end.

(** [urllib.request.Request]: the method is POST exactly when there is
    data. *)
Record request : Type := Request {
  full_url : str;
  data : option bytes;
  headers : list (str * str)
}.

Definition get_method (r : request) : str :=
  match data r with Some _ => "POST" | None => "GET" end.

Record response : Type := Response { status : Z; read : bytes }.

(** What the console has seen and which calls of [urlopen] were made,
    oldest first.  A printed line is recorded as the UTF-8 text written.
    [Opened] is one call of [urllib.request.urlopen] with the request it was
    given, not the single HTTP exchanges the opener makes inside the call. *)
Inductive event : Type :=
| Printed (line : bytes)
| Asked (prompt : str)
| Opened (r : request) (timeout : Z).

Definition trace := list event.

(** What one call of [urlopen] ends with: the reply the default opener
    arrives at, after the redirects it follows on its own inside the call,
    with its status line and its body read to the end; or the exception
    raised on the way.  A [Reply] with a redirect status is one the opener
    did not follow. *)
Inductive outcome : Type :=
| Reply (status : Z) (reason : str) (body : bytes)
| Failure (e : exn).

(** The world the script runs in; every answer may depend on what happened
    before.  [server] gives what a call of [urlopen] on a request ends
    with. *)
Record Env : Type := {
  server : trace -> request -> outcome;
  uuid4_hex : trace -> str;
  stdin_line : trace -> option str
}.

(** ** The effect monad: a trace, and a value or a raised exception *)

Inductive result (A : Type) : Type :=
| Ret (a : A)
| Raise (e : exn).

Arguments Ret {A} a.
Arguments Raise {A} e.

Definition M (A : Type) : Type := trace -> result A * trace.

Definition ret {A} (a : A) : M A := fun tr => (Ret a, tr).

Definition raise {A} (e : exn) : M A := fun tr => (Raise e, tr).

Definition bind {A B} (c : M A) (k : A -> M B) : M B :=
  fun tr =>
    match c tr with
    | (Ret a, tr') => k a tr'
    | (Raise e, tr') => (Raise e, tr')
    end.

Notation "x <- c ;; k" := (bind c (fun x => k))
  (at level 61, c at next level, right associativity).
Notation "c ;;; k" := (bind c (fun _ => k))
  (at level 61, right associativity).

(** [try: c except <classes> as e: h e], the classes given as a test. *)
Definition try_except {A} (c : M A) (caught : exn -> bool) (h : exn -> M A) : M A :=
  fun tr =>
    match c tr with
    | (Ret a, tr') => (Ret a, tr')
    | (Raise e, tr') => if caught e then h e tr' else (Raise e, tr')
    end.

Definition emit (ev : event) : M unit := fun tr => (Ret tt, (tr ++ [ev])%list).

Definition print (line : bytes) : M unit := emit (Printed line).

Definition REQUEST_TIMEOUT : Z := 10.

Definition DEFAULT_ICONS : list (str * Z) :=
  [("stock-up", 40160); ("stock-down", 40176); ("stock-neutral", 40161)]%Z.

(** The marks U+2713 and U+2717 in UTF-8, and the double quote. *)
Definition check_mark : bytes :=
  String (ascii_of_N 226) (String (ascii_of_N 156) (String (ascii_of_N 147) "")).
Definition cross_mark : bytes :=
  String (ascii_of_N 226) (String (ascii_of_N 156) (String (ascii_of_N 151) "")).
Definition dquote : string := String (ascii_of_N 34) "".
Definition CRLF : bytes := String CR (String LF "").

(** [s.upper()], exact on ASCII text. *)
Definition upper_char (c : ascii) : ascii :=
  if in_range c ("a", "z")%char then ascii_of_N (ord c - 32) else c.
Definition upper (s : str) : str := string_map upper_char s.

Fixpoint repeat_str (s : string) (n : nat) : string :=
  match n with O => "" | S k => s ++ repeat_str s k end.

(** [f"{s:20}"]: left-justified in a field of the given width. *)
Definition ljust (width : nat) (s : str) : str :=
  s ++ repeat_str " " (width - String.length s).

Section Script.

Context (E : Env).

(** [urllib.request.urlopen(req, timeout=...)] with the default opener:
    the reply the call arrives at is returned when its status is in
    200..299 and raised as [HTTPError] otherwise. *)
Definition urlopen (req : request) (timeout : Z) : M response :=
  fun tr =>
    let tr' := (tr ++ [Opened req timeout])%list in
    match server E tr req with
    | Reply st reason body =>
        if (200 <=? st)%Z && (st <? 300)%Z then (Ret (Response st body), tr')
        else (Raise (HTTPError st reason), tr')
    | Failure e => (Raise e, tr')
    end.

Definition uuid4 : M str := fun tr => (Ret (uuid4_hex E tr), tr).

(** [input(prompt)]. *)
Definition input (prompt : str) : M str :=
  fun tr =>
    let tr' := (tr ++ [Asked prompt])%list in
    match stdin_line E tr with
    | Some l => (Ret l, tr')
    | None => (Raise EOFError, tr')
    end.

(** ** download_icon *)

Definition icon_url (icon_id : Z) (ext : str) : str :=
  "https://developer.lametric.com/content/apps/icon_thumbs/"
  ++ str_of_Z icon_id ++ "." ++ ext.

(** One round of the loop body: [Some] is the [return] inside the [with]
    block, [None] falls through to the next format. *)
Definition download_attempt (icon_id : Z) (ext : str) : M (option (bytes * str)) :=
  try_except
    (response <- urlopen (Request (icon_url icon_id ext) None []) REQUEST_TIMEOUT ;;
     let data := read response in
     if negb (is_empty data) then
       print ("  " ++ check_mark ++ " Downloaded icon " ++ encode (str_of_Z icon_id)
              ++ " (" ++ encode (upper ext) ++ ", 8x8)") ;;;
       ret (Some (data, ext))
     else ret None)
    is_HTTPError
    (fun _ => ret None).

Fixpoint download_formats (icon_id : Z) (exts : list str) : M (bytes * str) :=
  match exts with
  | [] =>
      raise (ValueError ("Could not download icon " ++ str_of_Z icon_id
                         ++ " - icon not found or server error"))
  | ext :: rest =>
      r <- download_attempt icon_id ext ;;
      match r with
      | Some found => ret found
      | None => download_formats icon_id rest
      end
  end.

Definition download_icon (icon_id : Z) : M (bytes * str) :=
  download_formats icon_id ["gif"; "png"].

(** ** upload_icon_to_awtrix *)

Definition upload_body (boundary safe_icon_name : str) (icon_data : bytes)
    (file_ext : str) : list bytes :=
  [ encode ("--" ++ boundary);
    encode ("Content-Disposition: form-data; name=" ++ dquote ++ "data" ++ dquote
            ++ "; filename=" ++ dquote ++ "/ICONS/" ++ safe_icon_name ++ "."
            ++ file_ext ++ dquote);
    encode ("Content-Type: image/" ++ file_ext);
    "";
    icon_data;
    encode ("--" ++ boundary ++ "--");
    "" ].

Definition upload_request (device_ip boundary safe_icon_name : str)
    (icon_data : bytes) (file_ext : str) : request :=
  let url := "http://" ++ device_ip ++ "/edit" in
  let body_bytes := String.concat CRLF
                      (upload_body boundary safe_icon_name icon_data file_ext) in
  Request url (Some body_bytes)
    [ ("Content-Type", "multipart/form-data; boundary=" ++ boundary);
      ("Content-Length", str_of_Z (Z.of_nat (String.length body_bytes))) ].

Definition upload_icon_to_awtrix (device_ip icon_name : str) (icon_data : bytes)
    (file_ext : str) : M bool :=
  let safe_icon_name := sanitize_icon_name icon_name in
  hex <- uuid4 ;;
  let boundary := "----WebKitFormBoundary" ++ hex in
  let req := upload_request device_ip boundary safe_icon_name icon_data file_ext in
  try_except
    (response <- urlopen req REQUEST_TIMEOUT ;;
     if existsb (Z.eqb (status response)) [200; 201]%Z then
       print ("  " ++ check_mark ++ " Uploaded " ++ encode safe_icon_name ++ "."
              ++ encode file_ext ++ " to AWTRIX") ;;;
       ret true
     else
       print ("  " ++ cross_mark ++ " Upload failed with status "
              ++ encode (str_of_Z (status response))) ;;;
       ret false)
    (fun e => is_URLError e || is_OSError e)
    (fun e =>
       print ("  " ++ cross_mark ++ " Upload failed: " ++ encode (exn_str e)) ;;;
       ret false).

(** ** process_icon *)

Definition process_icon (device_ip icon_name : str) (icon_id : Z) : M bool :=
  print (String LF "Processing " ++ encode icon_name ++ " (ID: "
         ++ encode (str_of_Z icon_id) ++ ")...") ;;;
  try_except
    (found <- download_icon icon_id ;;
     let '(icon_data, file_ext) := found in
     upload_icon_to_awtrix device_ip icon_name icon_data file_ext)
    (fun e => is_URLError e || is_OSError e || is_ValueError e)
    (fun e =>
       print ("  " ++ cross_mark ++ " Error: " ++ encode (exn_str e)) ;;;
       ret false).

(** ** main *)

Definition is_empty_dict {A} (d : list A) : bool :=
  match d with [] => true | _ => false end.

(** The parsed command line: the namespace [parser.parse_args()] returns
    for the four arguments the script declares. *)
Record args : Type := Args {
  device_ip : option str;
  default_icons : bool;
  icon : option (list (str * str));
  list_default : bool
}.

(** A [dict] with string keys, in insertion order. *)
Definition dict := list (str * Z).

(** [d[k] = v]: a present key keeps its place. *)
Fixpoint dict_set (k : str) (v : Z) (d : dict) : dict :=
  match d with
  | [] => [(k, v)]
  | (k', v') :: r =>
      if String.eqb k k' then (k, v) :: r else (k', v') :: dict_set k v r
  end.

(** [d.update(other)]. *)
Definition dict_update (d other : dict) : dict :=
  fold_left (fun acc kv => dict_set (fst kv) (snd kv) acc) other d.

Fixpoint print_default_icons (items : dict) : M unit :=
  match items with
  | [] => ret tt
  | (name, icon_id) :: rest =>
      print ("  " ++ encode (ljust 20 name) ++ " - ID: " ++ encode (str_of_Z icon_id)) ;;;
      print_default_icons rest
  end.

Definition bad_icon_id (icon_id : str) : M unit :=
  print ("Error: Icon ID must be a positive integer, got '" ++ encode icon_id ++ "'").

(** The loop over [args.icon]: [inr code] is a [return code] from [main]. *)
Fixpoint add_icons (pairs : list (str * str)) (icons_to_upload : dict) : M (dict + Z) :=
  match pairs with
  | [] => ret (inl icons_to_upload)
  | (name, icon_id) :: rest =>
      match py_int icon_id with
      | Some icon_id_int =>
          if (icon_id_int <=? 0)%Z then bad_icon_id icon_id ;;; ret (inr 1%Z)
          else add_icons rest (dict_set name icon_id_int icons_to_upload)
      | None => bad_icon_id icon_id ;;; ret (inr 1%Z)
      end
  end.

(** The loop over [icons_to_upload.items()], carrying [success_count]. *)
Fixpoint upload_all (device : str) (items : dict) (success_count : Z) : M Z :=
  match items with
  | [] => ret success_count
  | (icon_name, icon_id) :: rest =>
      ok <- process_icon device icon_name icon_id ;;
      upload_all device rest (if ok then success_count + 1 else success_count)%Z
  end.

Definition rule : bytes := repeat_str "=" 60.

(** [args.device_ip], asked for when it is missing or empty: [inr code] is
    a [return code] from [main]. *)
Definition get_device_ip (a : args) : M (str + Z) :=
  match device_ip a with
  | Some (String c r) => ret (inl (String c r))
  | _ =>
      print "AWTRIX Device IP Address" ;;;
      print rule ;;;
      l <- input "Enter the IP address or hostname of your AWTRIX device: " ;;
      let device_ip := str_strip_ws l in
      if is_empty device_ip then print "Error: No IP address provided" ;;; ret (inr 1%Z)
      else ret (inl device_ip)
  end.

(** [main()] from the result of [parser.parse_args()] on: [a] is the
    namespace the parser returned.  When argparse ends the program itself
    (a usage error, [--help]) none of this code runs. *)
Definition main (a : args) : M Z :=
  if list_default a then
    print "Default recommended icons for Stock Display:" ;;;
    print "" ;;;
    print_default_icons DEFAULT_ICONS ;;;
    ret 0%Z
  else
    d <- get_device_ip a ;;
    match d with
    | inr code => ret code
    | inl device =>
        if negb (validate_ip_or_hostname device) then
          print ("Error: '" ++ encode device
                 ++ "' does not appear to be a valid IP address or hostname") ;;;
          print "Please provide a valid IP address (e.g., 192.168.1.100) or hostname" ;;;
          ret 1%Z
        else
          let icons_to_upload :=
            if default_icons a then dict_update [] DEFAULT_ICONS else [] in
          r <- match icon a with
               | Some (p :: ps) => add_icons (p :: ps) icons_to_upload
               | _ => ret (inl icons_to_upload)
               end ;;
          match r with
          | inr code => ret code
          | inl icons_to_upload =>
              if is_empty_dict icons_to_upload then
                print "Error: No icons specified. Use --default-icons or --icon to specify icons to upload." ;;;
                print "Run with --help for more information." ;;;
                ret 1%Z
              else
                let n := Z.of_nat (List.length icons_to_upload) in
                print ("Uploading " ++ encode (str_of_Z n) ++ " icon(s) to AWTRIX at "
                       ++ encode device) ;;;
                print rule ;;;
                success_count <- upload_all device icons_to_upload 0%Z ;;
                print "" ;;;
                print rule ;;;
                print ("Summary: " ++ encode (str_of_Z success_count) ++ "/"
                       ++ encode (str_of_Z n) ++ " icons uploaded successfully") ;;;
                ret (if (success_count =? n)%Z then 0 else 1)%Z
          end
    end.

(** [sys.exit(main())]: the returned code, or 1 when an exception reaches
    the top level. *)
Definition exit_status (r : result Z * trace) : Z :=
  match fst r with
  | Ret code => code
  | Raise _ => 1%Z
  end.

End Script.

(** ** Reference definitions, after the specification *)

(** The characters the specification allows in a sanitized name:
    A-Z, a-z, 0-9, hyphen, underscore. *)
Definition spec_allowed (c : ascii) : bool :=
  char_in "ABCDEFGHIJKLMNOPQRSTUVWXYZabcdefghijklmnopqrstuvwxyz0123456789-_" c.

Definition fallback_token : str := "icon".

Fixpoint drop_while (p : ascii -> bool) (l : list ascii) : list ascii :=
  match l with
  | [] => []
  | c :: r => if p c then drop_while p r else l
  end.

Definition is_underscore (c : ascii) : bool := Ascii.eqb c "_".

(** Replace every character outside the allowed set with an underscore. *)
Definition spec_replace (s : str) : str :=
  string_map (fun c => if spec_allowed c then c else "_"%char) s.

(** Strip leading and trailing underscores. *)
Definition spec_strip (s : str) : str :=
  string_of_list_ascii
    (rev (drop_while is_underscore
            (rev (drop_while is_underscore (list_ascii_of_string s))))).

(** The sanitizer as the specification words it. *)
Definition spec_sanitize (s : str) : str :=
  let t := spec_strip (spec_replace s) in
  if String.eqb t "" then fallback_token else t.

(** [r+] *)
Definition Plus (r : regex) : regex := Seq r (Star r).

(** [^[A-Za-z0-9_-]+$] *)
Definition sanitized_pattern : regex :=
  Plus (InSet [("A", "Z"); ("a", "z"); ("0", "9"); ("_", "_"); ("-", "-")]%char).

(** A decimal digit, a letter or digit, a hyphen, as the specification
    names them. *)
Definition spec_digit (c : ascii) : bool := char_in "0123456789" c.

Definition spec_alnum (c : ascii) : bool :=
  char_in "abcdefghijklmnopqrstuvwxyzABCDEFGHIJKLMNOPQRSTUVWXYZ0123456789" c.

Definition is_hyphen (c : ascii) : bool := Ascii.eqb c "-".

(** A group of between [lo] and [hi] decimal digits. *)
Definition digit_group (lo hi : nat) (g : str) : bool :=
  (lo <=? String.length g)%nat && (String.length g <=? hi)%nat
  && string_forallb spec_digit g.

(** A non-empty group of decimal digits. *)
Definition digits (g : str) : bool :=
  negb (is_empty g) && string_forallb spec_digit g.

(** Four dot-separated groups, each accepted by [ok]. *)
Definition four_groups (ok : str -> bool) (s : str) : bool :=
  match split "." s with
  | [a; b; c; d] => forallb ok [a; b; c; d]
  | _ => false
  end.

(** Four dot-separated non-empty groups of decimal digits. *)
Definition dotted_decimal (s : str) : bool := four_groups digits s.

(** Four dot-separated groups of one to three decimal digits. *)
Definition dotted_quad (s : str) : bool := four_groups (digit_group 1 3) s.

(** The group parses as an integer in [0,255]. *)
Definition octet_in_range (g : str) : bool :=
  match py_int g with
  | Some n => (0 <=? n)%Z && (n <=? 255)%Z
  | None => false
  end.

Fixpoint last_char (s : string) : option ascii :=
  match s with
  | EmptyString => None
  | String c EmptyString => Some c
  | String _ r => last_char r
  end.

Definition first_char (s : string) : option ascii :=
  match s with
  | EmptyString => None
  | String c _ => Some c
  end.

(** A host name label: 1 to 63 characters, letters, digits and hyphens, no
    hyphen first or last. *)
Definition spec_label (l : str) : bool :=
  (1 <=? String.length l)%nat && (String.length l <=? 63)%nat
  && string_forallb (fun c => spec_alnum c || is_hyphen c) l
  && negb (match first_char l with Some c => is_hyphen c | None => false end)
  && negb (match last_char l with Some c => is_hyphen c | None => false end).

(** One or more dot-separated labels. *)
Definition spec_hostname (s : str) : bool := forallb spec_label (split "." s).

(** The number a string of decimal digits denotes. *)
Fixpoint decimal_value (acc : Z) (s : string) : Z :=
  match s with
  | EmptyString => acc
  | String c r => decimal_value (acc * 10 + digit_val c) r
  end.

(** No occurrence of the separator. *)
Definition no_sep (sep : ascii) (s : string) : bool :=
  string_forallb (fun c => negb (Ascii.eqb c sep)) s.

(** The characters of a host name: label characters and the dot. *)
Definition hostname_char (c : ascii) : bool :=
  spec_alnum c || is_hyphen c || Ascii.eqb c ".".

(** *** The fetcher's decision table *)

(** How one download attempt ends: the bytes of a usable reply, a miss (try
    the next format), or an error that ends the download. *)
Inductive attempt : Type :=
| Hit (body : bytes)
| Miss
| Fatal (e : exn).

Definition success_status (st : Z) : bool := (200 <=? st)%Z && (st <? 300)%Z.

Definition attempt_of (o : outcome) : attempt :=
  match o with
  | Reply st _ body =>
      if success_status st then (if is_empty body then Miss else Hit body)
      else Miss
  | Failure e => if is_HTTPError e then Miss else Fatal e
  end.

Definition get_request (icon_id : Z) (ext : str) : request :=
  Request (icon_url icon_id ext) None [].

Definition downloaded_line (icon_id : Z) (ext : str) : bytes :=
  "  " ++ check_mark ++ " Downloaded icon " ++ encode (str_of_Z icon_id)
  ++ " (" ++ encode (upper ext) ++ ", 8x8)".

Definition not_found_message (icon_id : Z) : str :=
  "Could not download icon " ++ str_of_Z icon_id
  ++ " - icon not found or server error".

(** [needle in s]. *)
Fixpoint contains (needle s : string) : bool :=
  String.prefix needle s ||
  match s with
  | EmptyString => false
  | String _ r => contains needle r
  end.

(** *** Sample environments *)

Definition sample_hex : str := "0123456789abcdef0123456789abcdef".

(** Every call of [urlopen] ends the same way. *)
Definition constant_env (o : outcome) : Env :=
  {| server := fun _ _ => o;
     uuid4_hex := fun _ => sample_hex;
     stdin_line := fun _ => None |}.

(** The outcome is looked up by URL, with a default. *)
Fixpoint lookup_url (table : list (str * outcome)) (default : outcome) (url : str)
  : outcome :=
  match table with
  | [] => default
  | (u, o) :: rest => if String.eqb u url then o else lookup_url rest default url
  end.

Definition table_env (table : list (str * outcome)) (default : outcome) : Env :=
  {| server := fun _ req => lookup_url table default (full_url req);
     uuid4_hex := fun _ => sample_hex;
     stdin_line := fun _ => None |}.

(** A catalog in which icon 1 exists as gif, icon 3 only as png and icon 2
    not at all, with a device that accepts every upload. *)
Definition sample_catalog : Env :=
  table_env
    [ (icon_url 1 "gif", Reply 200 "OK" "GIF89a");
      (icon_url 2 "gif", Reply 404 "Not Found" "");
      (icon_url 2 "png", Reply 404 "Not Found" "");
      (icon_url 3 "gif", Reply 404 "Not Found" "");
      (icon_url 3 "png", Reply 200 "OK" "PNG") ]
    (Reply 200 "OK" "").

(** A network on which every call of [urlopen] breaks off with an
    exception of the HTTP client that is not an [OSError]. *)
Definition broken_network : Env :=
  constant_env (Failure (HTTPException "IncompleteRead")).

(** *** The upload request *)

Definition boundary_of (hex : str) : str := "----WebKitFormBoundary" ++ hex.

(** One file part of a multipart/form-data body. *)
Record part : Type := Part {
  field_name : str;
  filename : str;
  content_type : str;
  content : bytes
}.

(** A part on the wire: the delimiter line, the two header lines, an empty
    line, the content. *)
Definition render_part (boundary : str) (p : part) : bytes :=
  encode ("--" ++ boundary) ++ CRLF
  ++ encode ("Content-Disposition: form-data; name=" ++ dquote ++ field_name p
             ++ dquote ++ "; filename=" ++ dquote ++ filename p ++ dquote) ++ CRLF
  ++ encode ("Content-Type: " ++ content_type p) ++ CRLF
  ++ CRLF
  ++ content p ++ CRLF.

(** A multipart/form-data body: the parts, then the closing delimiter. *)
Definition render_multipart (boundary : str) (parts : list part) : bytes :=
  String.concat "" (map (render_part boundary) parts)
  ++ encode ("--" ++ boundary ++ "--") ++ CRLF.

(** [headers[name]]. *)
Fixpoint header (name : str) (hs : list (str * str)) : option str :=
  match hs with
  | [] => None
  | (n, v) :: r => if String.eqb n name then Some v else header name r
  end.

Definition is_opened (ev : event) : bool :=
  match ev with Opened _ _ => true | _ => false end.

(** The requests a trace records. *)
Definition network_calls (tr : trace) : list event := filter is_opened tr.

Definition uploaded_line (name ext : str) : bytes :=
  "  " ++ check_mark ++ " Uploaded " ++ encode (sanitize_icon_name name) ++ "."
  ++ encode ext ++ " to AWTRIX".

Definition upload_status_line (st : Z) : bytes :=
  "  " ++ cross_mark ++ " Upload failed with status " ++ encode (str_of_Z st).

Definition upload_failed_line (e : exn) : bytes :=
  "  " ++ cross_mark ++ " Upload failed: " ++ encode (exn_str e).

(** *** The batch *)

(** The results of the requests of a batch, one [process_icon] after the
    other in the order of the requests. *)
Fixpoint batch (E : Env) (device : str) (items : dict) : M (list bool) :=
  match items with
  | [] => ret []
  | (icon_name, icon_id) :: rest =>
      ok <- process_icon E device icon_name icon_id ;;
      oks <- batch E device rest ;;
      ret (ok :: oks)
  end.

(** The number of successes among the results. *)
Definition tally (results : list bool) : Z :=
  Z.of_nat (List.length (filter (fun b : bool => b) results)).

Definition processing_line (item : str * Z) : bytes :=
  String LF "Processing " ++ encode (fst item) ++ " (ID: "
  ++ encode (str_of_Z (snd item)) ++ ")...".

Definition error_line (e : exn) : bytes :=
  "  " ++ cross_mark ++ " Error: " ++ encode (exn_str e).

(** The line that opens the processing of a request. *)
Definition is_processing (ev : event) : bool :=
  match ev with
  | Printed l => String.prefix (String LF "Processing ") l
  | _ => false
  end.

(** The requests a trace shows as started. *)
Definition started (tr : trace) : list event := filter is_processing tr.

(** The exception classes [process_icon] handles. *)
Definition handled (e : exn) : bool :=
  is_URLError e || is_OSError e || is_ValueError e.

(** Every exception of the network is of a handled class. *)
Definition handled_failures (E : Env) : Prop :=
  forall tr req e, server E tr req = Failure e -> handled e = true.

(** *** The command line *)

Definition prompt_text : str :=
  "Enter the IP address or hostname of your AWTRIX device: ".

(** Whether the command line gives a device address. *)
Definition address_given (a : args) : bool :=
  match device_ip a with
  | Some (String _ _) => true
  | _ => false
  end.

(** The trace once the device address is known: unchanged when the command
    line gives it, with the prompt otherwise. *)
Definition preamble (a : args) (tr : trace) : trace :=
  if address_given a then tr
  else (((tr ++ [Printed "AWTRIX Device IP Address"]) ++ [Printed rule])
        ++ [Asked prompt_text])%list.

(** The device address of a run: the one of the command line, or else the
    answer to the prompt without its surrounding white space; [None] when
    there is no answer or a blank one. *)
Definition device_of (E : Env) (a : args) (tr : trace) : option str :=
  match device_ip a with
  | Some (String c r) => Some (String c r)
  | _ =>
      match stdin_line E ((tr ++ [Printed "AWTRIX Device IP Address"])
                          ++ [Printed rule])%list with
      | Some l => if is_empty (str_strip_ws l) then None else Some (str_strip_ws l)
      | None => None
      end
  end.

(** The name/id pairs of the command line merged into a table; [None] when
    an id is not a positive integer. *)
Fixpoint merge_icons (pairs : list (str * str)) (d : dict) : option dict :=
  match pairs with
  | [] => Some d
  | (name, icon_id) :: rest =>
      match py_int icon_id with
      | Some n => if (0 <? n)%Z then merge_icons rest (dict_set name n d) else None
      | None => None
      end
  end.

(** The icons a command line requests: the default table when asked for,
    then the pairs given, keyed by name. *)
Definition requested (a : args) : option dict :=
  merge_icons (match icon a with Some l => l | None => [] end)
              (if default_icons a then DEFAULT_ICONS else []).

(** The trace at which the first request of the batch is processed. *)
Definition batch_start (a : args) (tr : trace) (device : str) (items : dict) : trace :=
  ((preamble a tr
    ++ [Printed ("Uploading " ++ encode (str_of_Z (Z.of_nat (List.length items)))
                 ++ " icon(s) to AWTRIX at " ++ encode device)%string])
   ++ [Printed rule])%list.

(** Nothing was sent and no request was started between two traces. *)
Definition silent (tr tr' : trace) : Prop :=
  network_calls tr' = network_calls tr /\ started tr' = started tr.

(** A trace grows by events that start no request. *)
Definition grows_quietly (tr tr' : trace) : Prop :=
  exists evs, tr' = (tr ++ evs)%list /\ started evs = [].

(** *** The validator, as a grammar *)

(** What the validator accepts, leaving a final newline aside: a dotted
    quad whose groups are all in range, or else a host name. *)
Definition address_core (t : str) : bool :=
  if dotted_quad t then forallb octet_in_range (split "." t) else spec_hostname t.

(** The accepted addresses: the core, possibly followed by one newline. *)
Definition spec_valid_address (s : str) : bool :=
  address_core s ||
  match chomp s with
  | Some t => address_core t
  | None => false
  end.

(** Labels, each behind a dot. *)
Definition dotted (ls : list str) : string :=
  fold_right (fun l acc => "." ++ l ++ acc) "" ls.

(** The characters of a string that satisfy a test, in order. *)
Fixpoint string_filter (p : ascii -> bool) (s : string) : string :=
  match s with
  | EmptyString => EmptyString
  | String c r => if p c then String c (string_filter p r) else string_filter p r
  end.

(** A letter, a digit or a hyphen: what the sanitizer keeps as it is and
    never strips. *)
Definition kept_char (c : ascii) : bool := spec_alnum c || is_hyphen c.

(** *** The table of icons *)

(** [d.get(k)]. *)
Fixpoint dict_get (k : str) (d : dict) : option Z :=
  match d with
  | [] => None
  | (k', v) :: r => if String.eqb k k' then Some v else dict_get k r
  end.

(** The id given with the last pair of that name, if any. *)
Fixpoint last_given (name : str) (pairs : list (str * str)) : option str :=
  match pairs with
  | [] => None
  | (n, i) :: r =>
      match last_given name r with
      | Some x => Some x
      | None => if String.eqb name n then Some i else None
      end
  end.

Definition positive_ids (d : dict) : Prop := Forall (fun kv => (0 < snd kv)%Z) d.

(** A network on which every call of [urlopen] ends with a reply of
    status 200 or 201 and a body that is not empty. *)
Definition accepting (E : Env) : Prop :=
  forall tr req, exists st reason body,
    server E tr req = Reply st reason body
    /\ (st = 200 \/ st = 201)%Z
    /\ is_empty body = false.

Definition summary_line (k n : Z) : bytes :=
  "Summary: " ++ encode (str_of_Z k) ++ "/" ++ encode (str_of_Z n)
  ++ " icons uploaded successfully".

Definition is_asked (ev : event) : bool :=
  match ev with Asked _ => true | _ => false end.

(** The prompts a trace records. *)
Definition asked (tr : trace) : list event := filter is_asked tr.

(** A trace grows without a prompt. *)
Definition grows_unasked (tr tr' : trace) : Prop :=
  exists evs, tr' = (tr ++ evs)%list /\ asked evs = [].

(** * Properties *)

(** ** Strings *)

Lemma append_empty_r (s : string) : s ++ "" = s.
Proof. induction s as [|c s IH]; simpl; [reflexivity | now rewrite IH]. Qed.

Lemma append_assoc (s1 s2 s3 : string) : (s1 ++ s2) ++ s3 = s1 ++ (s2 ++ s3).
Proof. induction s1 as [|c s1 IH]; simpl; [reflexivity | now rewrite IH]. Qed.

Lemma append_length (s1 s2 : string) :
  String.length (s1 ++ s2) = String.length s1 + String.length s2.
Proof. induction s1 as [|c s1 IH]; simpl; [reflexivity | now rewrite IH]. Qed.

Lemma append_eq_empty (s1 s2 : string) : s1 ++ s2 = "" -> s1 = "" /\ s2 = "".
Proof. destruct s1; simpl; [auto | discriminate]. Qed.

Lemma is_empty_true (s : string) : is_empty s = true <-> s = "".
Proof. destruct s; simpl; split; congruence. Qed.

(** ** The matcher decides the language *)

Lemma lang_inv (r : regex) (s : string) :
  lang r s ->
  match r with
  | Never => False
  | Eps => s = ""
  | Lit c => s = String c ""
  | InSet cs => exists c, s = String c "" /\ in_set cs c = true
  | NotInSet cs => exists c, s = String c "" /\ in_set cs c = false
  | Seq r1 r2 => exists s1 s2, s = s1 ++ s2 /\ lang r1 s1 /\ lang r2 s2
  | Alt r1 r2 => lang r1 s \/ lang r2 s
  | Star r1 =>
      s = "" \/ exists s1 s2, s = s1 ++ s2 /\ lang r1 s1 /\ lang (Star r1) s2
  end.
Proof. intros H; destruct H; eauto 7. Qed.

Lemma nullable_lang (r : regex) : nullable r = true <-> lang r "".
Proof.
  induction r as [| | c | cs | cs | r1 IH1 r2 IH2 | r1 IH1 r2 IH2 | r IH]; simpl.
  - split; [discriminate | intros H; destruct (lang_inv _ _ H)].
  - split; [constructor | reflexivity].
  - split; [discriminate | intros H; apply lang_inv in H; discriminate].
  - split; [discriminate |].
    intros H; apply lang_inv in H; destruct H as (c & H & _); discriminate.
  - split; [discriminate |].
    intros H; apply lang_inv in H; destruct H as (c & H & _); discriminate.
  - rewrite andb_true_iff, IH1, IH2. split.
    + intros [H1 H2]. exact (L_seq _ _ "" "" H1 H2).
    + intros H. apply lang_inv in H. destruct H as (s1 & s2 & Heq & H1 & H2).
      symmetry in Heq. apply append_eq_empty in Heq as [-> ->]. now split.
  - rewrite orb_true_iff, IH1, IH2. split.
    + intros [H | H]; [now apply L_alt_l | now apply L_alt_r].
    + intros H. exact (lang_inv _ _ H).
  - split; [constructor | reflexivity].
Qed.

Lemma deriv_sound (c : ascii) (r : regex) :
  forall s, lang (deriv c r) s -> lang r (String c s).
Proof.
  induction r as [| | d | cs | cs | r1 IH1 r2 IH2 | r1 IH1 r2 IH2 | r IH];
    simpl; intros s H.
  - destruct (lang_inv _ _ H).
  - destruct (lang_inv _ _ H).
  - destruct (Ascii.eqb_spec c d) as [->|]; [|destruct (lang_inv _ _ H)].
    apply lang_inv in H. subst. constructor.
  - destruct (in_set cs c) eqn:Hc; [|destruct (lang_inv _ _ H)].
    apply lang_inv in H. subst. now constructor.
  - destruct (in_set cs c) eqn:Hc; [destruct (lang_inv _ _ H)|].
    apply lang_inv in H. subst. now constructor.
  - assert (Hseq : forall t, lang (Seq (deriv c r1) r2) t -> lang (Seq r1 r2) (String c t)).
    { intros t Ht. apply lang_inv in Ht. destruct Ht as (s1 & s2 & -> & H1 & H2).
      exact (L_seq _ _ (String c s1) s2 (IH1 _ H1) H2). }
    destruct (nullable r1) eqn:Hn; [|now apply Hseq].
    apply lang_inv in H. destruct H as [H | H]; [now apply Hseq|].
    apply nullable_lang in Hn.
    exact (L_seq _ _ "" (String c s) Hn (IH2 _ H)).
  - apply lang_inv in H. destruct H as [H | H]; [apply L_alt_l | apply L_alt_r]; auto.
  - apply lang_inv in H. destruct H as (s1 & s2 & -> & H1 & H2).
    exact (L_star_cons _ (String c s1) s2 (IH _ H1) H2).
Qed.

Lemma deriv_complete (c : ascii) (r : regex) (s0 : string) :
  lang r s0 -> forall s, s0 = String c s -> lang (deriv c r) s.
Proof.
  induction 1 as [| d | cs d Hd | cs d Hd | r1 r2 s1 s2 H1 IH1 H2 IH2
                 | r1 r2 s0 H IH | r1 r2 s0 H IH | r | r s1 s2 H1 IH1 H2 IH2];
    intros s Heq; simpl.
  - discriminate.
  - injection Heq as -> <-. rewrite Ascii.eqb_refl. constructor.
  - injection Heq as -> <-. rewrite Hd. constructor.
  - injection Heq as -> <-. rewrite Hd. constructor.
  - destruct s1 as [|c1 s1]; simpl in Heq.
    + subst s2. apply nullable_lang in H1. rewrite H1.
      apply L_alt_r. now apply IH2.
    + injection Heq as -> <-.
      assert (Hs : lang (Seq (deriv c r1) r2) (s1 ++ s2))
        by (constructor; [now apply IH1 | assumption]).
      destruct (nullable r1); [now apply L_alt_l | assumption].
  - apply L_alt_l. now apply IH.
  - apply L_alt_r. now apply IH.
  - discriminate.
  - destruct s1 as [|c1 s1]; simpl in Heq.
    + now apply IH2.
    + injection Heq as -> <-. constructor; [now apply IH1 | assumption].
Qed.

Lemma matches_lang (r : regex) (s : string) : matches r s = true <-> lang r s.
Proof.
  revert r. induction s as [|c s IH]; intros r; simpl.
  - apply nullable_lang.
  - rewrite IH. split.
    + apply deriv_sound.
    + intros H. now apply (deriv_complete c r (String c s)).
Qed.

(** ** sanitize_icon_name *)

Lemma safe_chars_allowed (c : ascii) : in_set safe_chars c = spec_allowed c.
Proof. destruct c as [[] [] [] [] [] [] [] []]; reflexivity. Qed.

Lemma matches_not_in_set (cs : charset) (c : ascii) :
  matches (NotInSet cs) (String c "") = negb (in_set cs c).
Proof. simpl. now destruct (in_set cs c). Qed.

Lemma matches_in_set (cs : charset) (c : ascii) :
  matches (InSet cs) (String c "") = in_set cs c.
Proof. simpl. now destruct (in_set cs c). Qed.

Lemma re_sub1_replace (s : str) :
  re_sub1 (NotInSet safe_chars) "_" s = spec_replace s.
Proof.
  unfold spec_replace.
  induction s as [|c s IH]; cbn [re_sub1 string_map]; [reflexivity|].
  rewrite matches_not_in_set, IH, <- safe_chars_allowed.
  now destruct (in_set safe_chars c).
Qed.

Lemma drop_while_app (p : ascii -> bool) (l m : list ascii) :
  drop_while p (l ++ m)%list =
  match drop_while p l with
  | [] => drop_while p m
  | l' => (l' ++ m)%list
  end.
Proof.
  induction l as [|c l IH]; simpl; [now destruct (drop_while p m)|].
  destruct (p c); [exact IH | reflexivity].
Qed.

Lemma lstrip_drop_while (p : ascii -> bool) (s : string) :
  list_ascii_of_string (lstrip p s) = drop_while p (list_ascii_of_string s).
Proof.
  induction s as [|c s IH]; simpl; [reflexivity|].
  destruct (p c); [exact IH | reflexivity].
Qed.

Lemma rstrip_drop_while (p : ascii -> bool) (s : string) :
  list_ascii_of_string (rstrip p s) =
  rev (drop_while p (rev (list_ascii_of_string s))).
Proof.
  induction s as [|c s IH]; simpl; [reflexivity|].
  rewrite drop_while_app.
  destruct (drop_while p (rev (list_ascii_of_string s))) as [|d l] eqn:Hd.
  - simpl in IH. destruct (rstrip p s); [|discriminate].
    simpl. now destruct (p c).
  - rewrite rev_app_distr, <- IH.
    destruct (rstrip p s) eqn:Hr; [|reflexivity].
    simpl in IH. apply (f_equal (@List.length ascii)) in IH.
    rewrite length_app in IH. simpl in IH. lia.
Qed.

Lemma char_in_underscore (c : ascii) : char_in "_" c = is_underscore c.
Proof. unfold is_underscore. simpl. now rewrite orb_false_r. Qed.

Lemma strip_ext (p q : ascii -> bool) (s : string) :
  (forall c, p c = q c) -> strip p s = strip q s.
Proof.
  intros Hpq. unfold strip.
  assert (Hl : forall t, lstrip p t = lstrip q t).
  { induction t as [|c t IH]; simpl; [reflexivity|]. now rewrite Hpq, IH. }
  assert (Hr : forall t, rstrip p t = rstrip q t).
  { induction t as [|c t IH]; simpl; [reflexivity|]. now rewrite Hpq, IH. }
  now rewrite Hl, Hr.
Qed.

Lemma str_strip_spec (s : str) : str_strip "_" s = spec_strip s.
Proof.
  unfold str_strip, spec_strip.
  rewrite (strip_ext _ is_underscore) by apply char_in_underscore.
  unfold strip.
  rewrite <- lstrip_drop_while, <- rstrip_drop_while.
  now rewrite string_of_list_ascii_of_string.
Qed.

Lemma sanitize_refines (s : str) : sanitize_icon_name s = spec_sanitize s.
Proof.
  unfold sanitize_icon_name, spec_sanitize.
  rewrite re_sub1_replace, str_strip_spec.
  now destruct (spec_strip (spec_replace s)).
Qed.

Lemma forallb_lstrip (q p : ascii -> bool) (s : string) :
  string_forallb q s = true -> string_forallb q (lstrip p s) = true.
Proof.
  induction s as [|c s IH]; simpl; [auto|].
  intros H. apply andb_true_iff in H as [Hc Hs].
  destruct (p c); [auto | simpl; now rewrite Hc, Hs].
Qed.

Lemma forallb_rstrip (q p : ascii -> bool) (s : string) :
  string_forallb q s = true -> string_forallb q (rstrip p s) = true.
Proof.
  induction s as [|c s IH]; simpl; [auto|].
  intros H. apply andb_true_iff in H as [Hc Hs]. specialize (IH Hs).
  destruct (rstrip p s) as [|d r].
  - destruct (p c); simpl; [reflexivity | now rewrite Hc].
  - change (q c && string_forallb q (String d r) = true). now rewrite Hc, IH.
Qed.

Lemma forallb_re_sub1 (s : str) :
  string_forallb (in_set safe_chars) (re_sub1 (NotInSet safe_chars) "_" s) = true.
Proof.
  induction s as [|c s IH]; cbn [re_sub1]; [reflexivity|].
  rewrite matches_not_in_set.
  destruct (in_set safe_chars c) eqn:Hc; simpl negb; cbn iota.
  - cbn [string_forallb]. now rewrite Hc, IH.
  - change ("_" ++ ?x) with (String "_" x). cbn [string_forallb]. now rewrite IH.
Qed.

Lemma sanitize_safe (s : str) :
  string_forallb (in_set safe_chars) (sanitize_icon_name s) = true.
Proof.
  unfold sanitize_icon_name, str_strip, strip.
  destruct (is_empty _) eqn:He; [reflexivity|].
  apply forallb_rstrip, forallb_lstrip, forallb_re_sub1.
Qed.

Lemma sanitize_nonempty (s : str) : sanitize_icon_name s <> "".
Proof.
  unfold sanitize_icon_name.
  destruct (is_empty _) eqn:He; [discriminate|].
  intros Heq. rewrite Heq in He. discriminate.
Qed.

Lemma star_set_lang (cs : charset) (s : string) :
  string_forallb (in_set cs) s = true -> lang (Star (InSet cs)) s.
Proof.
  induction s as [|c s IH]; simpl; intros H; [constructor|].
  apply andb_true_iff in H as [Hc Hs].
  exact (L_star_cons _ (String c "") s (L_set _ _ Hc) (IH Hs)).
Qed.

Lemma plus_set_lang (cs : charset) (s : string) :
  string_forallb (in_set cs) s = true -> s <> "" -> lang (Plus (InSet cs)) s.
Proof.
  destruct s as [|c s]; [congruence|]. simpl. intros H _.
  apply andb_true_iff in H as [Hc Hs].
  exact (L_seq _ _ (String c "") s (L_set _ _ Hc) (star_set_lang _ _ Hs)).
Qed.

Lemma string_forallb_ext (p q : ascii -> bool) (s : string) :
  (forall c, p c = q c) -> string_forallb p s = string_forallb q s.
Proof.
  intros Hpq. induction s as [|c s IH]; simpl; [reflexivity|]. now rewrite Hpq, IH.
Qed.

Lemma matches_re_match (r : regex) (s : string) :
  matches r s = true -> re_match r s = true.
Proof. unfold re_match. now intros ->. Qed.

Lemma pattern_set_safe (c : ascii) :
  in_set [("A", "Z"); ("a", "z"); ("0", "9"); ("_", "_"); ("-", "-")]%char c
  = in_set safe_chars c.
Proof. destruct c as [[] [] [] [] [] [] [] []]; reflexivity. Qed.

(** C1: the sanitizer computes the reference definition of the
    specification (replace every character outside A-Z, a-z, 0-9, hyphen,
    underscore by an underscore, strip leading and trailing underscores,
    fall back to the fixed token on an empty result); its output always
    matches [^[A-Za-z0-9_-]+$] and is never empty; and the three sample
    names are mapped as documented. *)
Theorem sanitize_icon_name_meets_spec :
  (forall s : str,
      sanitize_icon_name s = spec_sanitize s
      /\ re_match sanitized_pattern (sanitize_icon_name s) = true
      /\ string_forallb spec_allowed (sanitize_icon_name s) = true
      /\ sanitize_icon_name s <> "")
  /\ sanitize_icon_name "my icon!@#" = "my_icon"
  /\ sanitize_icon_name "___" = fallback_token
  /\ fallback_token <> ""
  /\ sanitize_icon_name "valid-Name_1" = "valid-Name_1".
Proof.
  split; [|repeat split; try reflexivity; discriminate].
  intros s. split; [apply sanitize_refines|].
  split; [|split; [|apply sanitize_nonempty]].
  - apply matches_re_match, matches_lang, plus_set_lang.
    + rewrite (string_forallb_ext _ _ _ pattern_set_safe). apply sanitize_safe.
    + apply sanitize_nonempty.
  - rewrite <- (string_forallb_ext _ _ _ safe_chars_allowed). apply sanitize_safe.
Qed.

Lemma re_sub1_safe (s : str) :
  string_forallb (in_set safe_chars) s = true ->
  re_sub1 (NotInSet safe_chars) "_" s = s.
Proof.
  induction s as [|c s IH]; cbn [re_sub1 string_forallb]; [reflexivity|].
  intros H. apply andb_true_iff in H as [Hc Hs].
  now rewrite matches_not_in_set, Hc, IH.
Qed.

Lemma rstrip_idem (p : ascii -> bool) (s : string) :
  rstrip p (rstrip p s) = rstrip p s.
Proof.
  induction s as [|c s IH]; simpl; [reflexivity|].
  destruct (rstrip p s) as [|d r] eqn:Hr.
  - destruct (p c) eqn:Hc; simpl; [reflexivity | now rewrite Hc].
  - cbn [rstrip]. cbn [rstrip] in IH. now rewrite IH.
Qed.

Lemma lstrip_head (p : ascii -> bool) (s : string) :
  match lstrip p s with
  | "" => True
  | String c _ => p c = false
  end.
Proof.
  induction s as [|c s IH]; simpl; [exact I|].
  destruct (p c) eqn:Hc; [exact IH | exact Hc].
Qed.

Lemma rstrip_head (p : ascii -> bool) (c : ascii) (s : string) :
  p c = false -> exists r, rstrip p (String c s) = String c r.
Proof.
  intros Hc. simpl. destruct (rstrip p s); [rewrite Hc|]; eauto.
Qed.

Lemma strip_idem (p : ascii -> bool) (s : string) :
  strip p (strip p s) = strip p s.
Proof.
  unfold strip. pose proof (lstrip_head p s) as Hh.
  destruct (lstrip p s) as [|c u]; [reflexivity|].
  destruct (rstrip_head p c u Hh) as [r Hr]. rewrite Hr.
  cbn [lstrip]. rewrite Hh, <- Hr. apply rstrip_idem.
Qed.

Lemma sanitize_fixpoint (t : str) :
  string_forallb (in_set safe_chars) t = true ->
  str_strip "_" t = t -> t <> "" -> sanitize_icon_name t = t.
Proof.
  intros Hsafe Hstrip Hne. unfold sanitize_icon_name.
  rewrite (re_sub1_safe _ Hsafe), Hstrip.
  destruct t; [congruence | reflexivity].
Qed.

Lemma sanitize_stripped (s : str) :
  str_strip "_" (sanitize_icon_name s) = sanitize_icon_name s.
Proof.
  unfold sanitize_icon_name.
  destruct (is_empty _); [reflexivity | apply strip_idem].
Qed.

(** C9: sanitizing is idempotent. *)
Theorem sanitize_icon_name_idempotent (s : str) :
  sanitize_icon_name (sanitize_icon_name s) = sanitize_icon_name s.
Proof.
  apply sanitize_fixpoint.
  - apply sanitize_safe.
  - apply sanitize_stripped.
  - apply sanitize_nonempty.
Qed.

(** ** Splitting and joining *)

Lemma split_not_nil (sep : ascii) (s : string) : split sep s <> [].
Proof.
  destruct s as [|c s]; simpl; [discriminate|].
  destruct (Ascii.eqb c sep); [discriminate|].
  destruct (split sep s); discriminate.
Qed.

Lemma concat_split (sep : ascii) (s : string) :
  String.concat (String sep "") (split sep s) = s.
Proof.
  induction s as [|c s IH]; simpl; [reflexivity|].
  destruct (Ascii.eqb_spec c sep) as [->|Hne].
  - pose proof (split_not_nil sep s) as Hnn.
    destruct (split sep s) as [|f fs]; [congruence|].
    cbn [String.concat]. simpl. now rewrite <- IH.
  - pose proof (split_not_nil sep s) as Hnn.
    destruct (split sep s) as [|f fs]; [congruence|].
    rewrite <- IH. destruct fs; reflexivity.
Qed.

Lemma split_no_sep (sep : ascii) (g : string) :
  no_sep sep g = true -> split sep g = [g].
Proof.
  unfold no_sep. induction g as [|c g IH]; simpl; [reflexivity|].
  intros H. apply andb_true_iff in H as [Hc Hg].
  apply negb_true_iff in Hc. rewrite Hc, (IH Hg). reflexivity.
Qed.

Lemma split_app_sep (sep : ascii) (g r : string) :
  no_sep sep g = true -> split sep (g ++ String sep r) = g :: split sep r.
Proof.
  unfold no_sep. induction g as [|c g IH]; simpl.
  - intros _. now rewrite Ascii.eqb_refl.
  - intros H. apply andb_true_iff in H as [Hc Hg].
    apply negb_true_iff in Hc. rewrite Hc, (IH Hg). reflexivity.
Qed.

Lemma split_fields_no_sep (sep : ascii) (s : string) :
  forallb (no_sep sep) (split sep s) = true.
Proof.
  induction s as [|c s IH]; cbn [split]; [reflexivity|].
  destruct (Ascii.eqb c sep) eqn:Hc; [exact IH|].
  destruct (split sep s) as [|f fs]; cbn [forallb] in *.
  - unfold no_sep. cbn [string_forallb]. now rewrite Hc.
  - unfold no_sep at 1. cbn [string_forallb]. rewrite Hc. exact IH.
Qed.

(** ** Parsing integers *)

Lemma spec_digit_is_digit (c : ascii) : spec_digit c = is_digit c.
Proof. destruct c as [[] [] [] [] [] [] [] []]; reflexivity. Qed.

Lemma digit_not_int_space (c : ascii) : is_digit c = true -> is_int_space c = false.
Proof. destruct c as [[] [] [] [] [] [] [] []]; vm_compute; congruence. Qed.

Lemma digit_not_dot (c : ascii) : is_digit c = true -> Ascii.eqb c "." = false.
Proof. destruct c as [[] [] [] [] [] [] [] []]; vm_compute; congruence. Qed.

Lemma rstrip_none (p : ascii -> bool) (s : string) :
  string_forallb (fun c => negb (p c)) s = true -> rstrip p s = s.
Proof.
  induction s as [|c s IH]; simpl; [reflexivity|].
  intros H. apply andb_true_iff in H as [Hc Hs]. apply negb_true_iff in Hc.
  rewrite (IH Hs), Hc. now destruct s.
Qed.

Lemma string_forallb_impl (p q : ascii -> bool) (s : string) :
  (forall c, p c = true -> q c = true) ->
  string_forallb p s = true -> string_forallb q s = true.
Proof.
  intros Hpq. induction s as [|c s IH]; simpl; [reflexivity|].
  intros H. apply andb_true_iff in H as [Hc Hs]. now rewrite (Hpq _ Hc), IH.
Qed.

Lemma strip_digits (g : string) :
  string_forallb is_digit g = true -> strip is_int_space g = g.
Proof.
  intros H. unfold strip.
  assert (Hl : lstrip is_int_space g = g).
  { destruct g as [|c r]; [reflexivity|]. simpl in *.
    apply andb_true_iff in H as [Hc _]. now rewrite (digit_not_int_space _ Hc). }
  rewrite Hl. apply rstrip_none.
  revert H. apply string_forallb_impl.
  intros c Hc. now rewrite (digit_not_int_space _ Hc).
Qed.

Lemma int_digits_value (s : string) :
  forall acc, string_forallb is_digit s = true ->
              int_digits acc s = Some (decimal_value acc s).
Proof.
  induction s as [|c s IH]; intros acc; cbn [int_digits decimal_value string_forallb];
    [reflexivity|].
  intros H. apply andb_true_iff in H as [Hc Hs]. rewrite Hc. now apply IH.
Qed.

Lemma int_signed_digit (c : ascii) (r : string) :
  is_digit c = true -> int_signed (String c r) = int_unsigned (String c r).
Proof. destruct c as [[] [] [] [] [] [] [] []]; vm_compute; congruence. Qed.

Lemma py_int_digits (g : str) :
  digits g = true -> py_int g = Some (decimal_value 0 g).
Proof.
  unfold digits. intros H. apply andb_true_iff in H as [Hne Hd].
  rewrite (string_forallb_ext _ _ _ spec_digit_is_digit) in Hd.
  unfold py_int. rewrite (strip_digits _ Hd).
  destruct g as [|c r]; [discriminate|].
  cbn [string_forallb] in Hd. apply andb_true_iff in Hd as [Hc Hr].
  rewrite (int_signed_digit _ _ Hc). cbn [int_unsigned]. rewrite Hc.
  cbn [decimal_value]. now apply int_digits_value.
Qed.

Lemma decimal_value_nonneg (s : string) :
  forall acc, (0 <= acc)%Z -> string_forallb is_digit s = true ->
              (0 <= decimal_value acc s)%Z.
Proof.
  induction s as [|c s IH]; intros acc Hacc; cbn [decimal_value string_forallb];
    [auto|].
  intros H. apply andb_true_iff in H as [Hc Hs]. apply IH; [|assumption].
  assert (0 <= digit_val c)%Z
    by (revert Hc; destruct c as [[] [] [] [] [] [] [] []]; vm_compute; congruence).
  lia.
Qed.

Lemma all_octets_parsed (l : list str) :
  forallb digits l = true -> all_octets l = Some (forallb octet_in_range l).
Proof.
  induction l as [|g l IH]; cbn [forallb all_octets]; [reflexivity|].
  intros H. apply andb_true_iff in H as [Hg Hl].
  unfold octet_in_range at 1. rewrite (py_int_digits _ Hg).
  destruct ((0 <=? _)%Z && (_ <=? 255)%Z); [now apply IH | reflexivity].
Qed.

(** ** The IPv4 pattern *)

Ltac lang_invert :=
  repeat match goal with
  | H : lang Never _ |- _ => destruct (lang_inv _ _ H)
  | H : lang Eps _ |- _ => apply lang_inv in H; subst
  | H : lang (Lit _) _ |- _ => apply lang_inv in H; subst
  | H : lang (InSet _) _ |- _ => apply lang_inv in H; destruct H as (? & -> & ?)
  | H : lang (Seq _ _) _ |- _ =>
      apply lang_inv in H; destruct H as (? & ? & -> & ? & ?)
  | H : lang (Alt _ _) _ |- _ => apply lang_inv in H; destruct H as [? | ?]
  end.

Lemma lang_eq (r : regex) (s t : string) : lang r s -> s = t -> lang r t.
Proof. now intros H <-. Qed.

Lemma digit_group_13_lang (g : str) :
  digit_group 1 3 g = true -> lang (Rep 1 3 (InSet digit)) g.
Proof.
  unfold digit_group. rewrite (string_forallb_ext _ _ _ spec_digit_is_digit).
  intros H. apply andb_true_iff in H as [Hlen Hd].
  unfold is_digit in Hd.
  destruct g as [|c1 [|c2 [|c3 [|c4 r]]]]; try discriminate;
    cbn [string_forallb] in Hd;
    repeat (let Hc := fresh "Hc" in apply andb_true_iff in Hd as [Hc Hd]).
  - exact (L_seq _ _ _ _ (L_seq _ _ _ _ (L_set _ c1 Hc) L_eps)
             (L_alt_r _ _ _ L_eps)).
  - exact (L_seq _ _ _ _ (L_seq _ _ _ _ (L_set _ c1 Hc) L_eps)
             (L_alt_l _ _ _
                (L_seq _ _ _ _ (L_set _ c2 Hc0) (L_alt_r _ _ _ L_eps)))).
  - exact (L_seq _ _ _ _ (L_seq _ _ _ _ (L_set _ c1 Hc) L_eps)
             (L_alt_l _ _ _
                (L_seq _ _ _ _ (L_set _ c2 Hc0)
                   (L_alt_l _ _ _ (L_seq _ _ _ _ (L_set _ c3 Hc1) L_eps))))).
Qed.

Lemma lang_digit_group_13 (g : str) :
  lang (Rep 1 3 (InSet digit)) g -> digit_group 1 3 g = true.
Proof.
  unfold Rep, Opt. cbn [Times UpTo Nat.sub]. unfold Opt. intros H.
  unfold digit_group. rewrite (string_forallb_ext _ _ _ spec_digit_is_digit).
  unfold is_digit.
  lang_invert; cbn -[in_set];
    repeat match goal with Hc : in_set digit _ = true |- _ => rewrite Hc; clear Hc end;
    reflexivity.
Qed.

Lemma digit_group_digits (lo hi : nat) (g : str) :
  digit_group (S lo) hi g = true -> digits g = true.
Proof.
  unfold digit_group, digits. intros H.
  apply andb_true_iff in H as [H Hd]. apply andb_true_iff in H as [Hlo _].
  rewrite Hd. now destruct g.
Qed.

Lemma digits_no_dot (g : str) : digits g = true -> no_sep "." g = true.
Proof.
  unfold digits, no_sep. intros H. apply andb_true_iff in H as [_ Hd].
  revert Hd. apply string_forallb_impl. intros c Hc.
  rewrite spec_digit_is_digit in Hc. now rewrite (digit_not_dot _ Hc).
Qed.

Lemma dotted_quad_shape (ok : str -> bool) (s : str) :
  four_groups ok s = true ->
  exists a b c d,
    split "." s = [a; b; c; d]
    /\ s = a ++ "." ++ b ++ "." ++ c ++ "." ++ d
    /\ ok a = true /\ ok b = true /\ ok c = true /\ ok d = true.
Proof.
  unfold four_groups. intros H. pose proof (concat_split "." s) as Hs.
  destruct (split "." s) as [|a [|b [|c [|d [|e l]]]]]; try discriminate.
  cbn [forallb] in H.
  repeat (let Hx := fresh "Hx" in apply andb_true_iff in H as [Hx H]).
  exists a, b, c, d. cbn [String.concat] in Hs. auto 10.
Qed.

Lemma times3_shape (R : regex) (s : string) :
  lang (Seq (Times 3 (Seq R (Lit "."))) R) s ->
  exists a b c d,
    s = a ++ "." ++ b ++ "." ++ c ++ "." ++ d
    /\ lang R a /\ lang R b /\ lang R c /\ lang R d.
Proof.
  cbn [Times]. intros H.
  apply lang_inv in H. destruct H as (s3 & d & -> & H3 & Hd).
  apply lang_inv in H3. destruct H3 as (sa & s2 & -> & Ha & H2).
  apply lang_inv in H2. destruct H2 as (sb & s1 & -> & Hb & H1).
  apply lang_inv in H1. destruct H1 as (sc & s0 & -> & Hc & H0).
  apply lang_inv in H0. subst s0.
  apply lang_inv in Ha. destruct Ha as (a & pa & -> & Ha & Hpa).
  apply lang_inv in Hb. destruct Hb as (b & pb & -> & Hb & Hpb).
  apply lang_inv in Hc. destruct Hc as (c & pc & -> & Hc & Hpc).
  apply lang_inv in Hpa. apply lang_inv in Hpb. apply lang_inv in Hpc. subst.
  exists a, b, c, d. split; [|auto].
  rewrite append_empty_r, !append_assoc. reflexivity.
Qed.

Lemma dotted_quad_lang (s : str) : dotted_quad s = true -> lang ipv4_pattern s.
Proof.
  intros H. apply dotted_quad_shape in H.
  destruct H as (a & b & c & d & _ & -> & Ha & Hb & Hc & Hd).
  apply digit_group_13_lang in Ha, Hb, Hc, Hd.
  unfold ipv4_pattern. cbn [Times].
  pose proof (L_lit ".") as Hdot.
  refine (lang_eq _ _ _
            (L_seq _ _ _ _
               (L_seq _ _ _ _ (L_seq _ _ _ _ Ha Hdot)
                  (L_seq _ _ _ _ (L_seq _ _ _ _ Hb Hdot)
                     (L_seq _ _ _ _ (L_seq _ _ _ _ Hc Hdot) L_eps)))
               Hd) _).
  rewrite append_empty_r, !append_assoc. reflexivity.
Qed.

Lemma lang_dotted_quad (s : str) : lang ipv4_pattern s -> dotted_quad s = true.
Proof.
  intros H. apply times3_shape in H.
  destruct H as (a & b & c & d & -> & Ha & Hb & Hc & Hd).
  apply lang_digit_group_13 in Ha, Hb, Hc, Hd.
  unfold dotted_quad, four_groups.
  assert (Hn : forall g, digit_group 1 3 g = true -> no_sep "." g = true)
    by (intros g Hg; apply digits_no_dot; exact (digit_group_digits _ _ _ Hg)).
  change (a ++ "." ++ b ++ "." ++ c ++ "." ++ d)
    with (a ++ String "." (b ++ String "." (c ++ String "." d))).
  rewrite !split_app_sep, split_no_sep by auto.
  cbn [forallb]. now rewrite Ha, Hb, Hc, Hd.
Qed.

(** ** validate_ip_or_hostname on dotted decimal strings *)

Lemma validate_ipv4_branch (s : str) :
  dotted_quad s = true ->
  validate_ip_or_hostname s = forallb octet_in_range (split "." s).
Proof.
  intros Hq. pose proof (dotted_quad_lang s Hq) as Hl.
  apply matches_lang, matches_re_match in Hl.
  destruct (dotted_quad_shape _ _ Hq) as (a & b & c & d & Hsplit & Hs & Ha & Hb & Hc & Hd).
  unfold validate_ip_or_hostname.
  destruct (is_empty s) eqn:He.
  { apply is_empty_true in He. rewrite He in Hq. vm_compute in Hq. discriminate Hq. }
  cbn [existsb].
  destruct (String.eqb_spec s "localhost") as [Hlh|_];
    [rewrite Hlh in Hq; vm_compute in Hq; discriminate Hq|].
  destruct (String.eqb_spec s "127.0.0.1") as [Hlo|_];
    [rewrite Hlo; reflexivity|].
  cbn [orb]. rewrite Hl, Hsplit, all_octets_parsed; [reflexivity|].
  cbn [forallb].
  now rewrite (digit_group_digits _ _ _ Ha), (digit_group_digits _ _ _ Hb),
    (digit_group_digits _ _ _ Hc), (digit_group_digits _ _ _ Hd).
Qed.

(** C2, as stated, fails: four non-empty groups of decimal digits with a
    group of more than three digits are not matched by the IPv4 pattern and
    are accepted as a host name, whatever the groups denote. *)
Lemma validate_accepts_long_digit_group :
  dotted_decimal "1234.1.1.1" = true
  /\ validate_ip_or_hostname "1234.1.1.1" = true
  /\ forallb octet_in_range (split "." "1234.1.1.1") = false.
Proof. vm_compute. auto. Qed.

(** C2, amended: for every string made of four dot-separated groups of one
    to three decimal digits, the validator returns true exactly when every
    group parses as an integer in [0,255]; "192.168.1.100" is valid and
    "256.1.1.1" is not. *)
Theorem validate_dotted_quad_octets :
  (forall s : str,
      dotted_quad s = true ->
      (validate_ip_or_hostname s = true
       <-> forallb octet_in_range (split "." s) = true))
  /\ validate_ip_or_hostname "192.168.1.100" = true
  /\ validate_ip_or_hostname "256.1.1.1" = false.
Proof.
  split; [|split; reflexivity].
  intros s Hq. now rewrite (validate_ipv4_branch s Hq).
Qed.

Lemma validate_dotted_quad_octets_witness :
  dotted_quad "10.0.0.300" = true
  /\ (validate_ip_or_hostname "10.0.0.300" = true
      <-> forallb octet_in_range (split "." "10.0.0.300") = true).
Proof.
  split; [reflexivity|].
  apply (proj1 validate_dotted_quad_octets). reflexivity.
Defined.

(** ** The host name pattern *)

Lemma spec_alnum_in_set (c : ascii) : spec_alnum c = in_set alnum c.
Proof. destruct c as [[] [] [] [] [] [] [] []]; reflexivity. Qed.

Lemma spec_label_char_in_set (c : ascii) :
  spec_alnum c || is_hyphen c = in_set alnum_hyphen c.
Proof. destruct c as [[] [] [] [] [] [] [] []]; reflexivity. Qed.

Lemma alnum_of_label_char (c : ascii) :
  in_set alnum_hyphen c = true -> is_hyphen c = false -> in_set alnum c = true.
Proof. destruct c as [[] [] [] [] [] [] [] []]; vm_compute; congruence. Qed.

Lemma string_forallb_app (p : ascii -> bool) (a b : string) :
  string_forallb p (a ++ b) = string_forallb p a && string_forallb p b.
Proof.
  induction a as [|c a IH]; simpl; [reflexivity|]. now rewrite IH, andb_assoc.
Qed.

Lemma last_char_snoc (s : string) :
  s <> "" -> exists m d, s = m ++ String d "" /\ last_char s = Some d.
Proof.
  induction s as [|c s IH]; [congruence|]. intros _.
  destruct s as [|c' s'].
  - exists "", c. now split.
  - destruct IH as (m & d & Hm & Hd); [discriminate|].
    exists (String c m), d. split.
    + simpl. now rewrite <- Hm.
    + cbn [last_char]. exact Hd.
Qed.

Lemma upto_lang (cs : charset) (n : nat) :
  forall s, string_forallb (in_set cs) s = true ->
            (String.length s <= n)%nat -> lang (UpTo n (InSet cs)) s.
Proof.
  induction n as [|n IH]; intros s Hs Hlen; cbn [UpTo].
  - destruct s; [constructor | simpl in Hlen; lia].
  - destruct s as [|c s]; [apply L_alt_r; constructor|].
    simpl in Hs, Hlen. apply andb_true_iff in Hs as [Hc Hs].
    apply L_alt_l.
    exact (L_seq _ _ (String c "") s (L_set _ _ Hc) (IH s Hs ltac:(lia))).
Qed.

Lemma spec_label_lang (l : str) : spec_label l = true -> lang label_pattern l.
Proof.
  unfold spec_label. intros H.
  apply andb_true_iff in H as [H Hlast]. apply andb_true_iff in H as [H Hfirst].
  apply andb_true_iff in H as [H Hchars]. apply andb_true_iff in H as [Hlo Hlen].
  rewrite (string_forallb_ext _ _ _ spec_label_char_in_set) in Hchars.
  apply Nat.leb_le in Hlen. apply negb_true_iff in Hfirst, Hlast.
  destruct l as [|c r]; [discriminate Hlo|]. clear Hlo.
  cbn [first_char] in Hfirst. cbn [string_forallb] in Hchars.
  apply andb_true_iff in Hchars as [Hc Hr].
  pose proof (alnum_of_label_char c Hc Hfirst) as Hc'.
  unfold label_pattern.
  destruct r as [|c2 r2].
  - exact (L_seq _ _ (String c "") "" (L_set _ _ Hc') (L_alt_r _ _ _ L_eps)).
  - destruct (last_char_snoc (String c2 r2)) as (m & d & Hm & Hd); [discriminate|].
    cbn [last_char] in Hlast. cbn [last_char] in Hd. rewrite Hd in Hlast.
    rewrite Hm in Hr, Hlen |- *. clear Hm Hd.
    rewrite string_forallb_app in Hr. apply andb_true_iff in Hr as [Hmid Hdc].
    cbn [string_forallb] in Hdc. rewrite andb_true_r in Hdc.
    pose proof (alnum_of_label_char d Hdc Hlast) as Hd'.
    cbn [String.length] in Hlen. rewrite append_length in Hlen. simpl in Hlen.
    apply (L_seq _ _ (String c "") (m ++ String d "") (L_set _ _ Hc')).
    apply L_alt_l. apply L_seq; [|now constructor].
    unfold Rep. cbn [Times Nat.sub].
    apply (L_seq _ _ "" m L_eps). apply upto_lang; [assumption | lia].
Qed.

Lemma dot_labels_lang (ls : list str) :
  forallb spec_label ls = true ->
  lang (Star (Seq (Lit ".") label_pattern))
       (fold_right (fun l acc => "." ++ l ++ acc) "" ls).
Proof.
  induction ls as [|l ls IH]; cbn [forallb fold_right]; [constructor|].
  intros H. apply andb_true_iff in H as [Hl Hls].
  refine (lang_eq _ _ _
            (L_star_cons _ _ _
               (L_seq _ _ _ _ (L_lit ".") (spec_label_lang _ Hl)) (IH Hls)) _).
  now rewrite append_assoc.
Qed.

Lemma concat_dot_fold (l : str) (ls : list str) :
  String.concat "." (l :: ls) = l ++ fold_right (fun l acc => "." ++ l ++ acc) "" ls.
Proof.
  revert l. induction ls as [|l' ls IH]; intros l.
  - simpl. now rewrite append_empty_r.
  - change (String.concat "." (l :: l' :: ls))
      with (l ++ "." ++ String.concat "." (l' :: ls)).
    rewrite IH. reflexivity.
Qed.

Lemma spec_hostname_lang (s : str) :
  spec_hostname s = true -> lang hostname_pattern_1 s.
Proof.
  unfold spec_hostname. intros H. rewrite <- (concat_split "." s).
  pose proof (split_not_nil "." s) as Hnn.
  destruct (split "." s) as [|l ls]; [congruence|].
  cbn [forallb] in H. apply andb_true_iff in H as [Hl Hls].
  rewrite concat_dot_fold. unfold hostname_pattern_1.
  apply L_seq; [now apply spec_label_lang | now apply dot_labels_lang].
Qed.

Lemma split_chars (s : str) :
  forallb (string_forallb (fun c => spec_alnum c || is_hyphen c)) (split "." s) = true ->
  string_forallb hostname_char s = true.
Proof.
  unfold hostname_char.
  induction s as [|c s IH]; cbn [split string_forallb]; [reflexivity|].
  destruct (Ascii.eqb c ".") eqn:Hc.
  - cbn [forallb string_forallb]. rewrite orb_true_r. exact IH.
  - destruct (split "." s) as [|f fs]; cbn [forallb string_forallb] in *.
    + rewrite !andb_true_r, orb_false_r. intros ->. now apply IH.
    + intros H. apply andb_true_iff in H as [H Hfs].
      apply andb_true_iff in H as [Hcc Hf].
      rewrite orb_false_r, Hcc. apply IH. now rewrite Hf, Hfs.
Qed.

Lemma spec_hostname_chars (s : str) :
  spec_hostname s = true -> string_forallb hostname_char s = true.
Proof.
  unfold spec_hostname. intros H. apply split_chars.
  revert H. generalize (split "." s). intros ls.
  induction ls as [|l ls IH]; cbn [forallb]; [reflexivity|].
  intros H. apply andb_true_iff in H as [Hl Hls]. rewrite (IH Hls), andb_true_r.
  unfold spec_label in Hl.
  apply andb_true_iff in Hl as [Hl _]. apply andb_true_iff in Hl as [Hl _].
  now apply andb_true_iff in Hl as [_ Hl].
Qed.

Lemma chomp_some_char (p : ascii -> bool) (s s' : string) :
  chomp s = Some s' -> string_forallb p s = true -> p LF = true.
Proof.
  revert s'. induction s as [|c s IH]; intros s'; [discriminate|].
  cbn [chomp string_forallb]. intros Hch Hp.
  apply andb_true_iff in Hp as [Hc Hs].
  destruct s as [|c2 s2].
  - destruct (Ascii.eqb_spec c LF) as [->|]; [exact Hc | discriminate].
  - destruct (chomp (String c2 s2)) as [r|] eqn:Hr; [|discriminate].
    exact (IH r eq_refl Hs).
Qed.

Lemma validate_hostname_branch (s : str) :
  spec_hostname s = true -> dotted_quad s = false ->
  validate_ip_or_hostname s = true.
Proof.
  intros Hh Hq. unfold validate_ip_or_hostname.
  destruct (is_empty s) eqn:He.
  { apply is_empty_true in He. rewrite He in Hh. discriminate Hh. }
  destruct (existsb _ _); [reflexivity|].
  destruct (re_match ipv4_pattern s) eqn:Hm.
  - exfalso. unfold re_match in Hm. apply orb_true_iff in Hm as [Hm | Hm].
    + apply matches_lang, lang_dotted_quad in Hm. congruence.
    + destruct (chomp s) as [s'|] eqn:Hc; [|discriminate].
      pose proof (chomp_some_char _ _ _ Hc (spec_hostname_chars _ Hh)) as Hlf.
      discriminate Hlf.
  - unfold match_hostname_pattern.
    apply spec_hostname_lang, matches_lang, matches_re_match in Hh.
    now rewrite Hh.
Qed.

(** C8, as stated, fails: a string of the host name grammar that the IPv4
    pattern matches is decided by the octet range check alone. *)
Lemma validate_rejects_hostname_shaped_quad :
  spec_hostname "256.1.1.1" = true
  /\ validate_ip_or_hostname "256.1.1.1" = false.
Proof. split; reflexivity. Qed.

(** C8, amended: the validator rejects the empty string, accepts
    "localhost" and "127.0.0.1", and accepts every string of the host name
    grammar (one or more dot-separated labels of 1 to 63 letters, digits and
    inner hyphens) that is not made of four dot-separated groups of one to
    three decimal digits; "my-device.local" is accepted. *)
Theorem validate_hostname_grammar :
  validate_ip_or_hostname "" = false
  /\ validate_ip_or_hostname "localhost" = true
  /\ validate_ip_or_hostname "127.0.0.1" = true
  /\ (forall s : str,
         spec_hostname s = true -> dotted_quad s = false ->
         validate_ip_or_hostname s = true)
  /\ validate_ip_or_hostname "my-device.local" = true.
Proof.
  repeat split; try reflexivity. exact validate_hostname_branch.
Qed.

Lemma validate_hostname_grammar_witness :
  spec_hostname "awtrix-3.lan" = true
  /\ dotted_quad "awtrix-3.lan" = false
  /\ validate_ip_or_hostname "awtrix-3.lan" = true.
Proof.
  split; [reflexivity|]. split; [reflexivity|].
  apply (proj1 (proj2 (proj2 (proj2 validate_hostname_grammar)))); reflexivity.
Defined.

(** ** download_icon *)

Lemma prefix_append (a b : string) : String.prefix a (a ++ b) = true.
Proof.
  induction a as [|c a IH]; simpl; [now destruct b|].
  destruct (ascii_dec c c); [exact IH | congruence].
Qed.

Lemma contains_prefix (a b : string) : contains a (a ++ b) = true.
Proof. destruct (a ++ b) eqn:H; cbn [contains]; rewrite <- H, prefix_append; reflexivity. Qed.

Lemma contains_append (n pre t : string) :
  contains n t = true -> contains n (pre ++ t) = true.
Proof.
  induction pre as [|c pre IH]; intros Ht; [exact Ht|].
  cbn [append contains]. rewrite (IH Ht). apply orb_true_r.
Qed.

Lemma download_attempt_outcome (E : Env) (icon_id : Z) (ext : str) (tr : trace) :
  let tr1 := (tr ++ [Opened (get_request icon_id ext) REQUEST_TIMEOUT])%list in
  download_attempt E icon_id ext tr =
  match attempt_of (server E tr (get_request icon_id ext)) with
  | Hit body => (Ret (Some (body, ext)),
                 (tr1 ++ [Printed (downloaded_line icon_id ext)])%list)
  | Miss => (Ret None, tr1)
  | Fatal e => (Raise e, tr1)
  end.
Proof.
  unfold download_attempt, try_except, bind, urlopen, attempt_of, success_status,
    get_request.
  destruct (server E tr _) as [st reason body | e].
  - destruct ((200 <=? st)%Z && (st <? 300)%Z); [|reflexivity].
    cbn [read]. destruct body; reflexivity.
  - destruct (is_HTTPError e); reflexivity.
Qed.

Lemma download_icon_outcome (E : Env) (icon_id : Z) (tr : trace) :
  let gif := get_request icon_id "gif" in
  let png := get_request icon_id "png" in
  let tr1 := (tr ++ [Opened gif REQUEST_TIMEOUT])%list in
  let tr2 := (tr1 ++ [Opened png REQUEST_TIMEOUT])%list in
  download_icon E icon_id tr =
  match attempt_of (server E tr gif) with
  | Hit body => (Ret (body, "gif"), (tr1 ++ [Printed (downloaded_line icon_id "gif")])%list)
  | Fatal e => (Raise e, tr1)
  | Miss =>
      match attempt_of (server E tr1 png) with
      | Hit body =>
          (Ret (body, "png"), (tr2 ++ [Printed (downloaded_line icon_id "png")])%list)
      | Fatal e => (Raise e, tr2)
      | Miss => (Raise (ValueError (not_found_message icon_id)), tr2)
      end
  end.
Proof.
  cbv zeta. unfold download_icon. cbn [download_formats]. unfold bind at 1.
  rewrite download_attempt_outcome.
  destruct (attempt_of (server E tr _)); try reflexivity.
  unfold bind at 1. rewrite download_attempt_outcome.
  destruct (attempt_of (server E _ _)); reflexivity.
Qed.

(** C3: the formats are tried in the order gif, png, one call of [urlopen]
    each; an attempt that ends with a non-success HTTP status is a miss and
    the next format is tried; the first attempt that ends with a success
    status and a non-empty body is returned at once with its bytes and its
    format; an error that is not an HTTP error status is raised without
    trying further; when both formats are exhausted a [ValueError] naming
    the icon id is raised. *)
Theorem download_icon_decision_table (E : Env) (icon_id : Z) (tr : trace) :
  let gif := get_request icon_id "gif" in
  let png := get_request icon_id "png" in
  let tr1 := (tr ++ [Opened gif REQUEST_TIMEOUT])%list in
  let tr2 := (tr1 ++ [Opened png REQUEST_TIMEOUT])%list in
  download_icon E icon_id tr =
  match attempt_of (server E tr gif) with
  | Hit body => (Ret (body, "gif"), (tr1 ++ [Printed (downloaded_line icon_id "gif")])%list)
  | Fatal e => (Raise e, tr1)
  | Miss =>
      match attempt_of (server E tr1 png) with
      | Hit body =>
          (Ret (body, "png"), (tr2 ++ [Printed (downloaded_line icon_id "png")])%list)
      | Fatal e => (Raise e, tr2)
      | Miss => (Raise (ValueError (not_found_message icon_id)), tr2)
      end
  end
  /\ contains (str_of_Z icon_id) (not_found_message icon_id) = true.
Proof.
  cbv zeta. split.
  - apply download_icon_outcome.
  - unfold not_found_message. apply contains_append, contains_prefix.
Qed.

Lemma attempt_hit_nonempty (o : outcome) (body : bytes) :
  attempt_of o = Hit body -> body <> "".
Proof.
  destruct o as [st reason b | e]; cbn [attempt_of].
  - destruct (success_status st); [|discriminate].
    destruct b; cbn [is_empty]; [discriminate|].
    intros H. injection H as <-. discriminate.
  - destruct (is_HTTPError e); discriminate.
Qed.

(** C10: a download never returns an empty byte string.  A reply with a
    success status and an empty body ends the attempt exactly as an HTTP
    error status does (the next format is tried); when that happens for
    both formats the [ValueError] is raised; and whenever the download
    returns, the bytes are non-empty and the format is gif or png. *)
Theorem download_icon_never_empty (E : Env) (icon_id : Z) :
  (forall tr data ext tr',
      download_icon E icon_id tr = (Ret (data, ext), tr') ->
      data <> "" /\ (ext = "gif" \/ ext = "png"))
  /\ (forall tr ext st reason,
         server E tr (get_request icon_id ext) = Reply st reason "" ->
         download_attempt E icon_id ext tr =
         (Ret None, (tr ++ [Opened (get_request icon_id ext) REQUEST_TIMEOUT])%list))
  /\ (forall tr ext st reason body,
         server E tr (get_request icon_id ext) = Reply st reason body ->
         success_status st = false ->
         download_attempt E icon_id ext tr =
         (Ret None, (tr ++ [Opened (get_request icon_id ext) REQUEST_TIMEOUT])%list))
  /\ (forall tr st1 reason1 st2 reason2,
         let tr1 := (tr ++ [Opened (get_request icon_id "gif") REQUEST_TIMEOUT])%list in
         server E tr (get_request icon_id "gif") = Reply st1 reason1 "" ->
         server E tr1 (get_request icon_id "png") = Reply st2 reason2 "" ->
         download_icon E icon_id tr =
         (Raise (ValueError (not_found_message icon_id)),
          (tr1 ++ [Opened (get_request icon_id "png") REQUEST_TIMEOUT])%list)).
Proof.
  split; [|split; [|split]].
  - intros tr data ext tr' H.
    rewrite download_icon_outcome in H.
    destruct (attempt_of (server E tr _)) as [b1| |e1] eqn:H1.
    + injection H as <- <- _. split; [exact (attempt_hit_nonempty _ _ H1) | now left].
    + destruct (attempt_of (server E _ (get_request icon_id "png"))) as [b2| |e2] eqn:H2;
        try discriminate.
      injection H as <- <- _. split; [exact (attempt_hit_nonempty _ _ H2) | now right].
    + discriminate.
  - intros tr ext st reason H. rewrite download_attempt_outcome, H.
    cbn [attempt_of is_empty]. now destruct (success_status st).
  - intros tr ext st reason body H Hst. rewrite download_attempt_outcome, H.
    cbn [attempt_of]. now rewrite Hst.
  - intros tr st1 reason1 st2 reason2 tr1 H1 H2.
    rewrite download_icon_outcome.
    fold tr1. rewrite H1, H2. cbn [attempt_of is_empty].
    now destruct (success_status st1), (success_status st2).
Qed.

Lemma download_icon_never_empty_witness :
  download_icon (constant_env (Reply 200 "OK" "GIF89a")) 40160 [] =
    (Ret ("GIF89a", "gif"),
     [Opened (get_request 40160 "gif") REQUEST_TIMEOUT;
      Printed (downloaded_line 40160 "gif")])
  /\ "GIF89a" <> ""
  /\ ("gif" = "gif" \/ "gif" = "png").
Proof.
  assert (H : download_icon (constant_env (Reply 200 "OK" "GIF89a")) 40160 [] =
              (Ret ("GIF89a", "gif"),
               [Opened (get_request 40160 "gif") REQUEST_TIMEOUT;
                Printed (downloaded_line 40160 "gif")])) by reflexivity.
  split; [exact H|].
  exact (proj1 (download_icon_never_empty _ 40160) [] _ _ _ H).
Defined.

(** ** upload_icon_to_awtrix *)

Lemma URLError_is_OSError (e : exn) : is_URLError e || is_OSError e = is_OSError e.
Proof. now destruct e. Qed.

Lemma upload_outcome (E : Env) (device name : str) (icon_data : bytes) (ext : str)
    (tr : trace) :
  let req := upload_request device (boundary_of (uuid4_hex E tr))
               (sanitize_icon_name name) icon_data ext in
  let tr1 := (tr ++ [Opened req REQUEST_TIMEOUT])%list in
  upload_icon_to_awtrix E device name icon_data ext tr =
  match server E tr req with
  | Reply st reason _ =>
      if (st =? 200)%Z || (st =? 201)%Z then
        (Ret true, (tr1 ++ [Printed (uploaded_line name ext)])%list)
      else
        (Ret false,
         (tr1 ++ [Printed (if success_status st then upload_status_line st
                           else upload_failed_line (HTTPError st reason))])%list)
  | Failure e =>
      if is_OSError e then (Ret false, (tr1 ++ [Printed (upload_failed_line e)])%list)
      else (Raise e, tr1)
  end.
Proof.
  cbv zeta. unfold upload_icon_to_awtrix, bind at 1, uuid4, boundary_of.
  unfold try_except, bind, urlopen, success_status.
  destruct (server E tr _) as [st reason body | e].
  - destruct ((200 <=? st)%Z && (st <? 300)%Z) eqn:Hs.
    + cbn [status existsb]. rewrite orb_false_r.
      destruct ((st =? 200)%Z || (st =? 201)%Z); reflexivity.
    + assert (Hn : (st =? 200)%Z || (st =? 201)%Z = false).
      { apply andb_false_iff in Hs. apply orb_false_iff.
        destruct Hs as [Hs | Hs]; [apply Z.leb_gt in Hs | apply Z.ltb_ge in Hs];
          split; apply Z.eqb_neq; lia. }
      rewrite Hn. reflexivity.
  - rewrite URLError_is_OSError. destruct (is_OSError e); reflexivity.
Qed.

(** C4: the upload on a device that answers with a malformed status line.
    The HTTP client raises [BadStatusLine], which is neither a [URLError]
    nor an [OSError]; the handler of the upload does not catch it, and the
    upload raises where it was to print a diagnostic and return false. *)
Lemma upload_raises_on_uncaught_class :
  let E := constant_env (Failure (HTTPException "BadStatusLine")) in
  let req := upload_request "awtrix.local" (boundary_of sample_hex)
               "stock-up" "GIF89a" "gif" in
  upload_icon_to_awtrix E "awtrix.local" "stock-up" "GIF89a" "gif" [] =
  (Raise (HTTPException "BadStatusLine"), [Opened req REQUEST_TIMEOUT]).
Proof. reflexivity. Qed.

Lemma upload_body_rendered (boundary name : str) (icon_data : bytes) (ext : str) :
  String.concat CRLF (upload_body boundary name icon_data ext) =
  render_multipart boundary
    [Part "data" ("/ICONS/" ++ name ++ "." ++ ext) ("image/" ++ ext) icon_data].
Proof.
  unfold upload_body, render_multipart, render_part.
  cbn [String.concat map field_name filename content_type content].
  rewrite append_empty_r, !append_assoc. reflexivity.
Qed.

Lemma upload_opens_once (E : Env) (device name : str) (icon_data : bytes)
    (ext : str) (tr : trace) :
  let req := upload_request device (boundary_of (uuid4_hex E tr))
               (sanitize_icon_name name) icon_data ext in
  network_calls (snd (upload_icon_to_awtrix E device name icon_data ext tr)) =
  (network_calls tr ++ [Opened req REQUEST_TIMEOUT])%list.
Proof.
  cbv zeta. rewrite upload_outcome. unfold network_calls.
  destruct (server E tr _) as [st reason body | e].
  - destruct ((st =? 200)%Z || (st =? 201)%Z); cbn [snd];
      rewrite !filter_app; cbn [filter is_opened]; now rewrite app_nil_r.
  - destruct (is_OSError e); cbn [snd];
      rewrite !filter_app; cbn [filter is_opened]; now rewrite ?app_nil_r.
Qed.

(** C5: the one request an upload sends is a POST to
    [http://<device>/edit] whose body is a multipart/form-data body of
    exactly one part, with field name "data", file name
    [/ICONS/<sanitized name>.<format>], content type [image/<format>] and
    the raw bytes as content, and whose Content-Length header is the byte
    length of that body. *)
Theorem upload_request_shape (E : Env) (device name : str) (icon_data : bytes)
    (ext : str) (tr : trace) :
  let boundary := boundary_of (uuid4_hex E tr) in
  let body :=
    render_multipart boundary
      [Part "data" ("/ICONS/" ++ sanitize_icon_name name ++ "." ++ ext)
         ("image/" ++ ext) icon_data] in
  exists req,
    network_calls (snd (upload_icon_to_awtrix E device name icon_data ext tr)) =
      (network_calls tr ++ [Opened req REQUEST_TIMEOUT])%list
    /\ get_method req = "POST"
    /\ full_url req = "http://" ++ device ++ "/edit"
    /\ data req = Some body
    /\ header "Content-Type" (headers req) =
         Some ("multipart/form-data; boundary=" ++ boundary)
    /\ header "Content-Length" (headers req) =
         Some (str_of_Z (Z.of_nat (String.length body))).
Proof.
  cbv zeta.
  exists (upload_request device (boundary_of (uuid4_hex E tr))
            (sanitize_icon_name name) icon_data ext).
  split; [apply upload_opens_once|].
  unfold upload_request. cbn [get_method full_url data headers header String.eqb].
  rewrite upload_body_rendered. repeat split; reflexivity.
Qed.

(** ** process_icon and the batch *)

Lemma process_icon_outcome (E : Env) (device name : str) (icon_id : Z) (tr : trace) :
  let tr0 := (tr ++ [Printed (processing_line (name, icon_id))])%list in
  process_icon E device name icon_id tr =
  match download_icon E icon_id tr0 with
  | (Ret (icon_data, ext), tr1) =>
      match upload_icon_to_awtrix E device name icon_data ext tr1 with
      | (Ret ok, tr2) => (Ret ok, tr2)
      | (Raise e, tr2) =>
          if handled e then (Ret false, (tr2 ++ [Printed (error_line e)])%list)
          else (Raise e, tr2)
      end
  | (Raise e, tr1) =>
      if handled e then (Ret false, (tr1 ++ [Printed (error_line e)])%list)
      else (Raise e, tr1)
  end.
Proof.
  cbv zeta. unfold process_icon, bind at 1, print, emit, try_except, bind.
  change (String LF "Processing " ++ encode name ++ " (ID: "
          ++ encode (str_of_Z icon_id) ++ ")...")
    with (processing_line (name, icon_id)).
  destruct (download_icon E icon_id _) as [[[icon_data ext] | e] tr1].
  - destruct (upload_icon_to_awtrix E device name icon_data ext tr1) as [[ok | e] tr2];
      [reflexivity|].
    unfold handled. destruct (_ || _); reflexivity.
  - unfold handled. destruct (_ || _); reflexivity.
Qed.

Lemma grows_refl (tr : trace) : grows_quietly tr tr.
Proof. exists []. now rewrite app_nil_r. Qed.

Lemma grows_trans (a b c : trace) :
  grows_quietly a b -> grows_quietly b c -> grows_quietly a c.
Proof.
  intros (e1 & -> & H1) (e2 & -> & H2). exists (e1 ++ e2)%list.
  split; [now rewrite app_assoc|].
  unfold started in *. now rewrite filter_app, H1, H2.
Qed.

Lemma grows_step (tr : trace) (ev : event) :
  is_processing ev = false -> grows_quietly tr (tr ++ [ev])%list.
Proof. intros H. exists [ev]. split; [reflexivity|]. unfold started. simpl. now rewrite H. Qed.

Lemma download_icon_trace (E : Env) (icon_id : Z) (tr : trace) :
  grows_quietly tr (snd (download_icon E icon_id tr))
  /\ forall e, fst (download_icon E icon_id tr) = Raise e ->
               is_ValueError e = true \/ exists t req, server E t req = Failure e.
Proof.
  rewrite download_icon_outcome.
  assert (Hf : forall o e, attempt_of o = Fatal e -> o = Failure e).
  { intros [st r b | e'] e; cbn [attempt_of].
    - destruct (success_status st); [destruct (is_empty b)|]; discriminate.
    - destruct (is_HTTPError e'); [discriminate|]. now intros [= ->]. }
  destruct (attempt_of (server E tr _)) as [b1 | | e1] eqn:H1; cbn [fst snd].
  - split; [|discriminate].
    eapply grows_trans; apply grows_step; reflexivity.
  - destruct (attempt_of (server E _ (get_request icon_id "png"))) as [b2 | | e2] eqn:H2;
      cbn [fst snd].
    + split; [|discriminate].
      eapply grows_trans; [eapply grows_trans|]; apply grows_step; reflexivity.
    + split; [eapply grows_trans; apply grows_step; reflexivity|].
      intros e [= <-]. now left.
    + split; [eapply grows_trans; apply grows_step; reflexivity|].
      intros e [= <-]. right. apply Hf in H2. eauto.
  - split; [apply grows_step; reflexivity|].
    intros e [= <-]. right. apply Hf in H1. eauto.
Qed.

Lemma upload_trace (E : Env) (device name : str) (icon_data : bytes) (ext : str)
    (tr : trace) :
  grows_quietly tr (snd (upload_icon_to_awtrix E device name icon_data ext tr))
  /\ forall e, fst (upload_icon_to_awtrix E device name icon_data ext tr) = Raise e ->
               exists t req, server E t req = Failure e.
Proof.
  rewrite upload_outcome.
  destruct (server E tr _) as [st reason body | e0] eqn:Hs.
  - destruct ((st =? 200)%Z || (st =? 201)%Z); cbn [fst snd].
    + split; [|discriminate]. eapply grows_trans; apply grows_step; reflexivity.
    + split; [|discriminate]. eapply grows_trans; apply grows_step;
        [reflexivity | now destruct (success_status st)].
  - destruct (is_OSError e0); cbn [fst snd].
    + split; [|discriminate]. eapply grows_trans; apply grows_step; reflexivity.
    + split; [apply grows_step; reflexivity|]. intros e [= <-]. eauto.
Qed.

Lemma process_icon_trace (E : Env) (device name : str) (icon_id : Z) (tr : trace) :
  grows_quietly (tr ++ [Printed (processing_line (name, icon_id))])%list
                (snd (process_icon E device name icon_id tr))
  /\ (handled_failures E ->
      exists ok, fst (process_icon E device name icon_id tr) = Ret ok).
Proof.
  rewrite process_icon_outcome. cbv zeta.
  set (tr0 := (tr ++ [Printed (processing_line (name, icon_id))])%list).
  pose proof (download_icon_trace E icon_id tr0) as [Hd Hde].
  destruct (download_icon E icon_id tr0) as [[[icon_data ext] | e] tr1];
    cbn [fst snd] in Hd, Hde.
  - pose proof (upload_trace E device name icon_data ext tr1) as [Hu Hue].
    destruct (upload_icon_to_awtrix E device name icon_data ext tr1) as [[ok | e] tr2];
      cbn [fst snd] in Hu, Hue.
    + split; [exact (grows_trans _ _ _ Hd Hu) | intros _; eexists; reflexivity].
    + pose proof (grows_trans _ _ _ Hd Hu) as Hg.
      destruct (handled e) eqn:He; cbn [fst snd].
      * split; [|intros _; eexists; reflexivity]. eapply grows_trans; [exact Hg | now apply grows_step].
      * split; [exact Hg|]. intros HE.
        destruct (Hue e eq_refl) as (t & req & Hs). rewrite (HE _ _ _ Hs) in He.
        discriminate.
  - destruct (handled e) eqn:He; cbn [fst snd].
    + split; [|intros _; eexists; reflexivity]. eapply grows_trans; [exact Hd | now apply grows_step].
    + split; [exact Hd|]. intros HE.
      destruct (Hde e eq_refl) as [Hv | (t & req & Hs)].
      * unfold handled in He. rewrite Hv, orb_true_r in He. discriminate.
      * rewrite (HE _ _ _ Hs) in He. discriminate.
Qed.

Lemma tally_cons (ok : bool) (oks : list bool) :
  tally (ok :: oks) = ((if ok then 1 else 0) + tally oks)%Z.
Proof. unfold tally. destruct ok; cbn [filter List.length]; lia. Qed.

Lemma upload_all_batch (E : Env) (device : str) (items : dict) :
  forall (c : Z) (tr : trace),
    upload_all E device items c tr =
    match batch E device items tr with
    | (Ret oks, tr') => (Ret (c + tally oks)%Z, tr')
    | (Raise e, tr') => (Raise e, tr')
    end.
Proof.
  induction items as [|[name icon_id] rest IH]; intros c tr; cbn [upload_all batch].
  - unfold ret. f_equal. f_equal. unfold tally. simpl. lia.
  - unfold bind, ret.
    destruct (process_icon E device name icon_id tr) as [[ok | e] tr1]; [|reflexivity].
    rewrite IH.
    destruct (batch E device rest tr1) as [[oks | e] tr2]; [|reflexivity].
    rewrite tally_cons. f_equal. f_equal. destruct ok; lia.
Qed.

Lemma batch_length (E : Env) (device : str) (items : dict) :
  forall tr oks tr',
    batch E device items tr = (Ret oks, tr') -> List.length oks = List.length items.
Proof.
  induction items as [|[name icon_id] rest IH]; intros tr oks tr'; cbn [batch].
  - unfold ret. now intros [= <- _].
  - unfold bind at 1.
    destruct (process_icon E device name icon_id tr) as [[ok | e] tr1]; [|discriminate].
    unfold bind, ret.
    destruct (batch E device rest tr1) as [[oks' | e] tr2] eqn:Hb; [|discriminate].
    intros [= <- _]. simpl. now rewrite (IH _ _ _ Hb).
Qed.

Lemma started_app (a b : trace) : started (a ++ b)%list = (started a ++ started b)%list.
Proof. apply filter_app. Qed.

Lemma processing_line_starts (item : str * Z) :
  is_processing (Printed (processing_line item)) = true.
Proof.
  unfold is_processing, processing_line.
  change (String LF "Processing " ++ ?x) with (String LF "Processing " ++ x).
  exact (prefix_append (String LF "Processing ") _).
Qed.

Lemma process_icon_started (E : Env) (device name : str) (icon_id : Z) (tr : trace) :
  started (snd (process_icon E device name icon_id tr)) =
  (started tr ++ [Printed (processing_line (name, icon_id))])%list.
Proof.
  destruct (process_icon_trace E device name icon_id tr) as [(evs & -> & Hq) _].
  rewrite !started_app, Hq, app_nil_r. f_equal.
  unfold started. cbn [filter]. now rewrite processing_line_starts.
Qed.

Lemma batch_in_order (E : Env) (device : str) (items : dict) :
  handled_failures E ->
  forall tr, exists oks tr',
    batch E device items tr = (Ret oks, tr')
    /\ List.length oks = List.length items
    /\ started tr' = (started tr ++ map (fun it => Printed (processing_line it)) items)%list.
Proof.
  intros HE. induction items as [|[name icon_id] rest IH]; intros tr; cbn [batch].
  - exists [], tr. cbn [map]. now rewrite app_nil_r.
  - unfold bind at 1.
    pose proof (process_icon_trace E device name icon_id tr) as [_ Hr].
    pose proof (process_icon_started E device name icon_id tr) as Hs.
    destruct (Hr HE) as [ok Hok].
    destruct (process_icon E device name icon_id tr) as [r tr1].
    cbn [fst snd] in Hok, Hs. subst r.
    destruct (IH tr1) as (oks & tr' & Hb & Hlen & Hst).
    exists (ok :: oks), tr'. unfold bind, ret. rewrite Hb.
    split; [reflexivity|]. split; [simpl; now rewrite Hlen|].
    rewrite Hst, Hs, <- app_assoc. reflexivity.
Qed.

Lemma batch_of_three (E : Env) (device : str) (r1 r2 r3 : str * Z)
    (tr tr1 tr2 tr3 : trace) (e : exn) :
  process_icon E device (fst r1) (snd r1) tr = (Ret true, tr1) ->
  download_icon E (snd r2) (tr1 ++ [Printed (processing_line r2)])%list = (Raise e, tr2) ->
  handled e = true ->
  process_icon E device (fst r3) (snd r3) (tr2 ++ [Printed (error_line e)])%list
    = (Ret true, tr3) ->
  batch E device [r1; r2; r3] tr = (Ret [true; false; true], tr3)
  /\ upload_all E device [r1; r2; r3] 0 tr = (Ret 2%Z, tr3).
Proof.
  intros H1 H2 He H3.
  assert (Hb : batch E device [r1; r2; r3] tr = (Ret [true; false; true], tr3)).
  { destruct r1 as [n1 i1], r2 as [n2 i2], r3 as [n3 i3]. cbn [fst snd] in *.
    cbn [batch]. unfold bind, ret. rewrite H1. cbv beta iota.
    rewrite process_icon_outcome. cbv zeta. rewrite H2, He. cbv beta iota.
    rewrite H3. reflexivity. }
  split; [exact Hb|]. now rewrite upload_all_batch, Hb.
Qed.

(** C6: a batch of two requests when the first download breaks off with
    [IncompleteRead], an exception of the HTTP client that [process_icon]
    does not handle: the exception leaves [process_icon] and the loop, and
    the second request is never started, where the first was to count as a
    failure and the second to be processed. *)
Lemma batch_aborts_on_unhandled_class :
  exists tr,
    upload_all broken_network "awtrix.local" [("a", 1%Z); ("b", 2%Z)] 0 [] =
      (Raise (HTTPException "IncompleteRead"), tr)
    /\ started tr = [Printed (processing_line ("a", 1%Z))].
Proof. eexists. split; reflexivity. Qed.

(** X19: the loop of [main] runs [process_icon] on the requests in input
    order and counts the successes; when every exception of the network is
    of a class [process_icon] handles ([URLError] with HTTP error statuses,
    [OSError], [ValueError]), there is one result per request, in the order
    of the requests, and every request is started, in that order; and for
    three requests of which the second fails to download and the others
    succeed, the results are success, failure, success and the count is 2
    of 3. *)
Theorem pipeline_processes_in_order (E : Env) (device : str) :
  (forall items c tr,
      upload_all E device items c tr =
      match batch E device items tr with
      | (Ret oks, tr') => (Ret (c + tally oks)%Z, tr')
      | (Raise e, tr') => (Raise e, tr')
      end)
  /\ (handled_failures E ->
      forall items tr, exists oks tr',
        batch E device items tr = (Ret oks, tr')
        /\ List.length oks = List.length items
        /\ started tr' =
           (started tr ++ map (fun it => Printed (processing_line it)) items)%list)
  /\ (forall r1 r2 r3 tr tr1 tr2 tr3 e,
         process_icon E device (fst r1) (snd r1) tr = (Ret true, tr1) ->
         download_icon E (snd r2) (tr1 ++ [Printed (processing_line r2)])%list
           = (Raise e, tr2) ->
         handled e = true ->
         process_icon E device (fst r3) (snd r3) (tr2 ++ [Printed (error_line e)])%list
           = (Ret true, tr3) ->
         batch E device [r1; r2; r3] tr = (Ret [true; false; true], tr3)
         /\ upload_all E device [r1; r2; r3] 0 tr = (Ret 2%Z, tr3)
         /\ tally [true; false; true] = 2%Z
         /\ List.length [r1; r2; r3] = 3%nat).
Proof.
  split; [|split].
  - apply upload_all_batch.
  - intros HE items tr. now apply batch_in_order.
  - intros r1 r2 r3 tr tr1 tr2 tr3 e H1 H2 He H3.
    destruct (batch_of_three E device r1 r2 r3 tr tr1 tr2 tr3 e H1 H2 He H3) as [Hb Hu].
    repeat split; assumption || reflexivity.
Qed.

Lemma pipeline_processes_in_order_witness :
  let E := sample_catalog in
  let device := "awtrix.local" in
  let r1 := ("stock-up", 1%Z) in
  let r2 := ("stock-down", 2%Z) in
  let r3 := ("stock-neutral", 3%Z) in
  let tr1 := snd (process_icon E device (fst r1) (snd r1) []) in
  let e := ValueError (not_found_message 2) in
  let tr2 := snd (download_icon E (snd r2) (tr1 ++ [Printed (processing_line r2)])%list) in
  let tr3 := snd (process_icon E device (fst r3) (snd r3)
                    (tr2 ++ [Printed (error_line e)])%list) in
  handled_failures E
  /\ batch E device [r1; r2; r3] [] = (Ret [true; false; true], tr3)
  /\ upload_all E device [r1; r2; r3] 0 [] = (Ret 2%Z, tr3)
  /\ started tr3 = map (fun it => Printed (processing_line it)) [r1; r2; r3].
Proof.
  intros E device r1 r2 r3 tr1 e tr2 tr3.
  assert (HE : handled_failures E).
  { intros tr req e0. unfold E, sample_catalog, table_env. cbn [server lookup_url].
    repeat match goal with |- context [if ?b then _ else _] => destruct b end;
      discriminate. }
  split; [exact HE|].
  destruct (proj2 (proj2 (pipeline_processes_in_order E device))
              r1 r2 r3 [] tr1 tr2 tr3 e)
    as (Hb & Hu & _); try (vm_compute; reflexivity).
  split; [exact Hb|]. split; [exact Hu|].
  destruct (proj1 (proj2 (pipeline_processes_in_order E device)) HE [r1; r2; r3] [])
    as (oks & tr' & Hb' & _ & Hst).
  pose proof (eq_trans (eq_sym Hb') Hb) as Heq.
  injection Heq as _ Htr. rewrite <- Htr. exact Hst.
Defined.

(** ** main *)

Lemma silent_refl (tr : trace) : silent tr tr.
Proof. now split. Qed.

Lemma silent_trans (a b c : trace) : silent a b -> silent b c -> silent a c.
Proof. intros [H1 H2] [H3 H4]. split; congruence. Qed.

Lemma silent_step (tr : trace) (ev : event) :
  is_opened ev = false -> is_processing ev = false -> silent tr (tr ++ [ev])%list.
Proof.
  intros Ho Hp. unfold silent, network_calls, started.
  rewrite !filter_app. cbn [filter]. rewrite Ho, Hp. now rewrite !app_nil_r.
Qed.

Ltac silence :=
  repeat first
    [ apply silent_refl
    | apply silent_step; reflexivity
    | eapply silent_trans; [|apply silent_step; reflexivity] ].

Lemma silent_preamble (a : args) (tr : trace) : silent tr (preamble a tr).
Proof. unfold preamble. destruct (address_given a); silence. Qed.

Lemma get_device_ip_outcome (E : Env) (a : args) (tr : trace) :
  match device_of E a tr with
  | Some device => get_device_ip E a tr = (Ret (inl device), preamble a tr)
  | None =>
      silent tr (snd (get_device_ip E a tr))
      /\ (fst (get_device_ip E a tr) = Ret (inr 1%Z)
          \/ exists e, fst (get_device_ip E a tr) = Raise e)
  end.
Proof.
  unfold device_of, get_device_ip, preamble, address_given.
  assert (Hprompt :
    match
      match stdin_line E ((tr ++ [Printed "AWTRIX Device IP Address"])
                          ++ [Printed rule])%list with
      | Some l => if is_empty (str_strip_ws l) then None else Some (str_strip_ws l)
      | None => None
      end
    with
    | Some device =>
        (print "AWTRIX Device IP Address" ;;;
         print rule ;;;
         l <- input E prompt_text ;;
         (let device_ip := str_strip_ws l in
          if is_empty device_ip
          then print "Error: No IP address provided" ;;; ret (inr 1%Z)
          else ret (inl device_ip))) tr =
        (Ret (inl device),
         (((tr ++ [Printed "AWTRIX Device IP Address"]) ++ [Printed rule])
          ++ [Asked prompt_text])%list)
    | None =>
        let r :=
          (print "AWTRIX Device IP Address" ;;;
           print rule ;;;
           l <- input E prompt_text ;;
           (let device_ip := str_strip_ws l in
            if is_empty device_ip
            then print "Error: No IP address provided" ;;; ret (inr 1%Z)
            else ret (inl device_ip))) tr in
        silent tr (snd r)
        /\ (fst r = Ret (inr 1%Z) \/ exists e, fst r = Raise e)
    end).
  { unfold bind, print, emit, input, ret.
    destruct (stdin_line E _) as [l|].
    - destruct (is_empty (str_strip_ws l)); cbn [fst snd].
      + split; [silence | now left].
      + reflexivity.
    - cbn [fst snd]. split; [silence | right; eauto]. }
  destruct (device_ip a) as [[|c r]|]; try exact Hprompt. reflexivity.
Qed.

Lemma add_icons_outcome (pairs : list (str * str)) :
  forall (d : dict) (tr : trace),
    match merge_icons pairs d with
    | Some d' => add_icons pairs d tr = (Ret (inl d'), tr)
    | None => exists line, add_icons pairs d tr = (Ret (inr 1%Z), (tr ++ [Printed line])%list)
                           /\ is_processing (Printed line) = false
    end.
Proof.
  induction pairs as [|[name icon_id] rest IH]; intros d tr; cbn [merge_icons add_icons].
  - reflexivity.
  - destruct (py_int icon_id) as [n|].
    + rewrite Z.leb_antisym. destruct (0 <? n)%Z; cbn [negb].
      * apply IH.
      * eexists. split; reflexivity.
    + eexists. split; reflexivity.
Qed.

Lemma icons_step (a : args) (d : dict) :
  match icon a with
  | Some (p :: ps) => add_icons (p :: ps) d
  | _ => ret (inl d)
  end = add_icons (match icon a with Some l => l | None => [] end) d.
Proof. destruct (icon a) as [[|p ps]|]; reflexivity. Qed.

Lemma main_after_address (E : Env) (a : args) (tr : trace) (device : str) :
  list_default a = false ->
  device_of E a tr = Some device ->
  validate_ip_or_hostname device = true ->
  main E a tr =
  match requested a with
  | None =>
      (Ret 1%Z, snd (add_icons (match icon a with Some l => l | None => [] end)
                       (if default_icons a then DEFAULT_ICONS else []) (preamble a tr)))
  | Some [] =>
      (Ret 1%Z,
       ((preamble a tr
         ++ [Printed "Error: No icons specified. Use --default-icons or --icon to specify icons to upload."])
        ++ [Printed "Run with --help for more information."])%list)
  | Some items =>
      let n := Z.of_nat (List.length items) in
      match batch E device items (batch_start a tr device items) with
      | (Ret oks, tr') =>
          (Ret (if (tally oks =? n)%Z then 0 else 1)%Z,
           (((tr' ++ [Printed ""]) ++ [Printed rule])
            ++ [Printed ("Summary: " ++ encode (str_of_Z (tally oks)) ++ "/"
                         ++ encode (str_of_Z n)
                         ++ " icons uploaded successfully")%string])%list)
      | (Raise e, tr') => (Raise e, tr')
      end
  end.
Proof.
  intros Hld Hdev Hval. unfold main. rewrite Hld. unfold bind at 1.
  pose proof (get_device_ip_outcome E a tr) as Hget. rewrite Hdev in Hget.
  rewrite Hget, Hval. cbn [negb]. rewrite icons_step. unfold bind at 1.
  change (dict_update [] DEFAULT_ICONS) with DEFAULT_ICONS.
  unfold requested.
  pose proof (add_icons_outcome (match icon a with Some l => l | None => [] end)
                (if default_icons a then DEFAULT_ICONS else []) (preamble a tr)) as Hadd.
  destruct (merge_icons _ _) as [items|].
  - rewrite Hadd. destruct items as [|item items]; [reflexivity|].
    cbn [is_empty_dict]. cbv zeta.
    unfold bind at 1, print at 1, emit at 1.
    unfold bind at 1, print at 1, emit at 1.
    unfold bind at 1. rewrite upload_all_batch. unfold batch_start.
    destruct (batch E device (item :: items) _) as [[oks | e] tr']; [|reflexivity].
    rewrite Z.add_0_l. reflexivity.
  - destruct Hadd as (line & Hadd & _). rewrite Hadd. reflexivity.
Qed.

Lemma tally_bounds (oks : list bool) : (0 <= tally oks <= Z.of_nat (List.length oks))%Z.
Proof.
  induction oks as [|ok oks IH]; [unfold tally; simpl; lia|].
  rewrite tally_cons. cbn [List.length]. destruct ok; lia.
Qed.

Lemma tally_all_true (oks : list bool) :
  tally oks = Z.of_nat (List.length oks) <-> forallb (fun b : bool => b) oks = true.
Proof.
  induction oks as [|ok oks IH]; [unfold tally; simpl; tauto|].
  rewrite tally_cons. cbn [List.length forallb].
  pose proof (tally_bounds oks) as Hb.
  destruct ok; cbn [andb].
  - rewrite <- IH. lia.
  - split; [lia | discriminate].
Qed.

Lemma main_list_default (E : Env) (a : args) (tr : trace) :
  list_default a = true ->
  exit_status (main E a tr) = 0%Z /\ silent tr (snd (main E a tr)).
Proof.
  intros Hld. unfold main. rewrite Hld.
  unfold DEFAULT_ICONS. cbn [print_default_icons].
  unfold bind, print, emit, ret, exit_status. cbn [fst snd].
  split; [reflexivity | silence].
Qed.

Lemma main_fatal (E : Env) (a : args) (tr : trace) :
  list_default a = false ->
  device_of E a tr = None
  \/ (exists device, device_of E a tr = Some device
                     /\ validate_ip_or_hostname device = false)
  \/ requested a = None
  \/ requested a = Some [] ->
  exit_status (main E a tr) = 1%Z /\ silent tr (snd (main E a tr)).
Proof.
  intros Hld Hfatal.
  pose proof (get_device_ip_outcome E a tr) as Hget.
  destruct (device_of E a tr) as [device|] eqn:Hdev.
  - destruct (validate_ip_or_hostname device) eqn:Hval.
    + rewrite (main_after_address E a tr device Hld Hdev Hval).
      destruct Hfatal as [Hf | [(d' & Hf & Hv) | [Hf | Hf]]];
        [discriminate | congruence | |]; rewrite Hf.
      * unfold exit_status. cbn [fst snd]. split; [reflexivity|].
        pose proof (add_icons_outcome (match icon a with Some l => l | None => [] end)
                      (if default_icons a then DEFAULT_ICONS else []) (preamble a tr))
          as Hadd.
        unfold requested in Hf. rewrite Hf in Hadd.
        destruct Hadd as (line & -> & Hline). cbn [snd].
        eapply silent_trans; [apply silent_preamble | now apply silent_step].
      * unfold exit_status. cbn [fst snd]. split; [reflexivity|].
        eapply silent_trans; [apply silent_preamble | silence].
    + remember (main E a tr) as m eqn:Hm.
      unfold main in Hm. rewrite Hld in Hm. unfold bind at 1 in Hm.
      rewrite Hget, Hval in Hm. cbn [negb] in Hm.
      unfold bind, print, emit, ret in Hm. subst m.
      unfold exit_status. cbn [fst snd]. split; [reflexivity|].
      eapply silent_trans; [apply silent_preamble | silence].
  - destruct Hget as [Hs Hr].
    remember (main E a tr) as m eqn:Hm.
    unfold main in Hm. rewrite Hld in Hm. unfold bind at 1 in Hm.
    destruct (get_device_ip E a tr) as [[[device | code] | e] tr1];
      cbn [fst snd] in Hs, Hr; subst m.
    + destruct Hr as [Hr | [e Hr]]; discriminate.
    + destruct Hr as [Hr | [e Hr]]; [|discriminate].
      injection Hr as ->. unfold ret, exit_status. cbn [fst snd]. now split.
    + unfold exit_status. cbn [fst snd]. now split.
Qed.

Lemma main_batch_exit (E : Env) (a : args) (tr : trace) (device : str) (items : dict) :
  list_default a = false ->
  device_of E a tr = Some device ->
  validate_ip_or_hostname device = true ->
  requested a = Some items ->
  items <> [] ->
  (exit_status (main E a tr) = 0%Z
   <-> exists oks tr',
         batch E device items (batch_start a tr device items) = (Ret oks, tr')
         /\ forallb (fun b : bool => b) oks = true)
  /\ (exit_status (main E a tr) = 0%Z \/ exit_status (main E a tr) = 1%Z).
Proof.
  intros Hld Hdev Hval Hreq Hne.
  rewrite (main_after_address E a tr device Hld Hdev Hval), Hreq.
  destruct items as [|item items]; [congruence|]. cbv zeta.
  destruct (batch E device (item :: items) _) as [[oks | e] tr'] eqn:Hb.
  - pose proof (batch_length _ _ _ _ _ _ Hb) as Hlen.
    unfold exit_status. cbn [fst]. rewrite <- Hlen.
    destruct (Z.eqb_spec (tally oks) (Z.of_nat (List.length oks))) as [Heq | Hneq].
    + split; [|now left]. split; [|reflexivity].
      intros _. exists oks, tr'. split; [reflexivity | now apply tally_all_true].
    + split; [|now right]. split; [discriminate|].
      intros (oks' & tr'' & [= <- <-] & Hall). apply tally_all_true in Hall. congruence.
  - unfold exit_status. cbn [fst]. split; [|now right].
    split; [discriminate|]. intros (oks & tr'' & Hc & _). discriminate.
Qed.

(** C7: on the path of [main] that validates the address, builds the table
    and runs the batch, which a parsed command line takes when it does not
    ask for the list of the default icons: the exit code is 1, and nothing
    is sent and no request is started, when there is no device address,
    when the address is invalid, when an icon id is not a positive integer
    or when no icon is requested; otherwise the exit code is 0 exactly when
    the batch runs to its end and every requested icon of the table is
    processed successfully, and 1 in every other case. *)
Theorem main_exit_status (E : Env) (a : args) (tr : trace) :
  list_default a = false ->
  (device_of E a tr = None
   \/ (exists device, device_of E a tr = Some device
                      /\ validate_ip_or_hostname device = false)
   \/ requested a = None
   \/ requested a = Some [] ->
   exit_status (main E a tr) = 1%Z /\ silent tr (snd (main E a tr)))
  /\ (forall device items,
         device_of E a tr = Some device ->
         validate_ip_or_hostname device = true ->
         requested a = Some items ->
         items <> [] ->
         (exit_status (main E a tr) = 0%Z
          <-> exists oks tr',
                batch E device items (batch_start a tr device items) = (Ret oks, tr')
                /\ forallb (fun b : bool => b) oks = true)
         /\ (exit_status (main E a tr) = 0%Z \/ exit_status (main E a tr) = 1%Z)).
Proof.
  intros Hld. split; [now apply main_fatal|].
  intros device items. now apply main_batch_exit.
Qed.

Lemma main_exit_status_witness :
  let E := sample_catalog in
  let good := Args (Some "192.168.1.100") false
                (Some [("stock-up", "1"); ("stock-neutral", "3")]) false in
  let partial := Args (Some "192.168.1.100") false
                   (Some [("stock-up", "1"); ("stock-down", "2")]) false in
  let bad_address := Args (Some "256.1.1.1") true None false in
  let bad_id := Args (Some "192.168.1.100") true (Some [("mine", "-5")]) false in
  let nothing := Args (Some "192.168.1.100") false None false in
  exit_status (main E good []) = 0%Z
  /\ exit_status (main E partial []) = 1%Z
  /\ (exit_status (main E bad_address []) = 1%Z
      /\ silent [] (snd (main E bad_address [])))
  /\ (exit_status (main E bad_id []) = 1%Z /\ silent [] (snd (main E bad_id [])))
  /\ (exit_status (main E nothing []) = 1%Z /\ silent [] (snd (main E nothing []))).
Proof.
  intros E good partial bad_address bad_id nothing.
  split; [|split; [|split; [|split]]].
  - assert (Hne : [("stock-up", 1%Z); ("stock-neutral", 3%Z)] <> [])
      by discriminate.
    destruct (proj2 (main_exit_status E good [] eq_refl)
                "192.168.1.100" [("stock-up", 1%Z); ("stock-neutral", 3%Z)]
                eq_refl eq_refl eq_refl Hne) as [Hiff _].
    apply Hiff. eexists. eexists. split; vm_compute; reflexivity.
  - reflexivity.
  - apply (proj1 (main_exit_status E bad_address [] eq_refl)).
    right. left. exists "256.1.1.1". split; reflexivity.
  - apply (proj1 (main_exit_status E bad_id [] eq_refl)).
    right. right. left. reflexivity.
  - apply (proj1 (main_exit_status E nothing [] eq_refl)).
    right. right. right. reflexivity.
Defined.

(** ** The patterns of the validator are the grammars *)

Lemma upto_inv (cs : charset) (n : nat) :
  forall s, lang (UpTo n (InSet cs)) s ->
            (String.length s <= n)%nat /\ string_forallb (in_set cs) s = true.
Proof.
  induction n as [|n IH]; intros s H; cbn [UpTo] in H.
  - apply lang_inv in H. subst. split; [simpl; lia | reflexivity].
  - unfold Opt in H. apply lang_inv in H. destruct H as [H | H].
    + apply lang_inv in H. destruct H as (s1 & s2 & -> & H1 & H2).
      apply lang_inv in H1. destruct H1 as (c & -> & Hc).
      destruct (IH _ H2) as [Hlen Hall]. cbn [append String.length string_forallb].
      rewrite Hc, Hall. split; [lia | reflexivity].
    + apply lang_inv in H. subst. split; [simpl; lia | reflexivity].
Qed.

Lemma alnum_label_char (c : ascii) :
  in_set alnum c = true -> in_set alnum_hyphen c = true /\ is_hyphen c = false.
Proof. destruct c as [[] [] [] [] [] [] [] []]; vm_compute; split; congruence. Qed.

Lemma last_char_app (m : string) (d : ascii) : last_char (m ++ String d "") = Some d.
Proof.
  induction m as [|c m IH]; [reflexivity|].
  cbn [append last_char]. rewrite IH. now destruct (m ++ String d "").
Qed.

Lemma label_lang_inv (l : str) : lang label_pattern l -> spec_label l = true.
Proof.
  unfold label_pattern, Opt, Rep. cbn [Times Nat.sub]. intros H.
  apply lang_inv in H. destruct H as (s1 & rest & -> & H1 & H2).
  apply lang_inv in H1. destruct H1 as (c & -> & Hc).
  destruct (alnum_label_char c Hc) as [Hc' Hch].
  unfold spec_label.
  rewrite (string_forallb_ext _ _ _ spec_label_char_in_set).
  apply lang_inv in H2. destruct H2 as [H2 | H2].
  - apply lang_inv in H2. destruct H2 as (pm & sd & -> & Hpm & Hsd).
    apply lang_inv in Hpm. destruct Hpm as (e & m & -> & He & Hm).
    apply lang_inv in He. subst e.
    apply lang_inv in Hsd. destruct Hsd as (d & -> & Hd).
    destruct (alnum_label_char d Hd) as [Hd' Hdh].
    destruct (upto_inv _ _ _ Hm) as [Hlen Hall].
    cbn [append first_char]. rewrite Hch.
    change (String c (m ++ String d "")) with (String c m ++ String d "").
    rewrite last_char_app, Hdh, string_forallb_app.
    cbn [append string_forallb String.length]. rewrite Hc', Hall, Hd'.
    rewrite append_length. cbn [String.length].
    replace (S (String.length m + 1) <=? 63)%nat with true
      by (symmetry; apply Nat.leb_le; lia).
    reflexivity.
  - apply lang_inv in H2. subst rest.
    cbn [append first_char last_char string_forallb String.length].
    now rewrite Hch, Hc'.
Qed.

Lemma star_labels_inv (R : regex) (t : string) :
  lang R t -> R = Star (Seq (Lit ".") label_pattern) ->
  exists ls, forallb spec_label ls = true /\ t = dotted ls.
Proof.
  induction 1 as [| | | | | | | r | r s1 s2 H1 _ H2 IH2]; intros HR; try discriminate.
  - exists []. now split.
  - injection HR as ->. destruct (IH2 eq_refl) as (ls & Hls & ->).
    apply lang_inv in H1. destruct H1 as (dot & l & -> & Hdot & Hl).
    apply lang_inv in Hdot. subst dot.
    exists (l :: ls). cbn [forallb]. rewrite (label_lang_inv _ Hl), Hls.
    split; [reflexivity|]. unfold dotted. cbn [fold_right].
    now rewrite append_assoc.
Qed.

Lemma spec_label_no_dot (l : str) : spec_label l = true -> no_sep "." l = true.
Proof.
  unfold spec_label, no_sep. intros H.
  apply andb_true_iff in H as [H _]. apply andb_true_iff in H as [H _].
  apply andb_true_iff in H as [_ H]. revert H. apply string_forallb_impl.
  intros c. destruct c as [[] [] [] [] [] [] [] []]; vm_compute; congruence.
Qed.

Lemma split_dotted (ls : list str) :
  forallb spec_label ls = true ->
  forall l, spec_label l = true -> split "." (l ++ dotted ls) = l :: ls.
Proof.
  induction ls as [|l' ls IH]; cbn [forallb]; intros H l Hl.
  - unfold dotted. cbn [fold_right]. rewrite append_empty_r.
    apply split_no_sep, spec_label_no_dot, Hl.
  - apply andb_true_iff in H as [Hl' Hls].
    change (dotted (l' :: ls)) with (String "." (l' ++ dotted ls)).
    rewrite split_app_sep by (apply spec_label_no_dot, Hl).
    now rewrite IH.
Qed.

Lemma hostname_lang_inv (s : str) : lang hostname_pattern_1 s -> spec_hostname s = true.
Proof.
  unfold hostname_pattern_1. intros H.
  apply lang_inv in H. destruct H as (l & t & -> & Hl & Ht).
  apply label_lang_inv in Hl.
  destruct (star_labels_inv _ _ Ht eq_refl) as (ls & Hls & ->).
  unfold spec_hostname. rewrite (split_dotted _ Hls _ Hl).
  cbn [forallb]. now rewrite Hl, Hls.
Qed.

Lemma bool_eq_iff (a b : bool) : (a = true <-> b = true) -> a = b.
Proof.
  destruct a, b; intros [H1 H2]; try reflexivity.
  - symmetry. now apply H1.
  - now apply H2.
Qed.

Lemma matches_hostname_1 (s : str) : matches hostname_pattern_1 s = spec_hostname s.
Proof.
  apply bool_eq_iff. rewrite matches_lang. split.
  - apply hostname_lang_inv.
  - apply spec_hostname_lang.
Qed.

Lemma matches_ipv4 (s : str) : matches ipv4_pattern s = dotted_quad s.
Proof.
  apply bool_eq_iff. rewrite matches_lang. split.
  - apply lang_dotted_quad.
  - apply dotted_quad_lang.
Qed.

Lemma hostname_2_in_1 (s : str) :
  matches hostname_pattern_2 s = true -> matches hostname_pattern_1 s = true.
Proof.
  rewrite !matches_lang. unfold hostname_pattern_2, hostname_pattern_1, label_pattern.
  intros H. apply lang_inv in H. destruct H as (c & -> & Hc).
  refine (L_seq _ _ (String c "") "" _ (L_star_nil _)).
  exact (L_seq _ _ (String c "") "" (L_set _ _ Hc) (L_alt_r _ _ _ L_eps)).
Qed.

Lemma match_hostname_is_pattern_1 (s : str) :
  match_hostname_pattern s = re_match hostname_pattern_1 s.
Proof.
  unfold match_hostname_pattern, re_match.
  destruct (matches hostname_pattern_1 s) eqn:H1; [reflexivity|].
  destruct (matches hostname_pattern_2 s) eqn:H2.
  { apply hostname_2_in_1 in H2. congruence. }
  cbn [orb]. destruct (chomp s) as [t|]; [|reflexivity].
  destruct (matches hostname_pattern_1 t) eqn:H3; [reflexivity|].
  destruct (matches hostname_pattern_2 t) eqn:H4; [|reflexivity].
  apply hostname_2_in_1 in H4. congruence.
Qed.

(** X1: on the strings of this development (code points below 256), the
    IPv4 pattern as [re.match] applies it, with its [$], matches exactly
    the strings made of four dot-separated groups of one to three ASCII
    digits, and those strings followed by one newline. *)
Theorem ipv4_pattern_exact (s : str) :
  re_match ipv4_pattern s =
  dotted_quad s || match chomp s with Some t => dotted_quad t | None => false end.
Proof.
  unfold re_match. rewrite matches_ipv4.
  destruct (chomp s) as [t|]; [now rewrite matches_ipv4 | reflexivity].
Qed.

(** X2: the host name pattern as [re.match] applies it, with its [$],
    matches exactly the strings made of one or more dot-separated labels
    of 1 to 63 letters, digits and inner hyphens, and those strings
    followed by one newline; its second alternative, a single letter or
    digit, adds nothing to the first. *)
Theorem hostname_pattern_exact (s : str) :
  match_hostname_pattern s =
    spec_hostname s || match chomp s with Some t => spec_hostname t | None => false end
  /\ match_hostname_pattern s = re_match hostname_pattern_1 s.
Proof.
  split; [|apply match_hostname_is_pattern_1].
  rewrite match_hostname_is_pattern_1. unfold re_match. rewrite matches_hostname_1.
  destruct (chomp s) as [t|]; [now rewrite matches_hostname_1 | reflexivity].
Qed.

(** ** The validator as a whole *)

Lemma chomp_inv (s t : string) : chomp s = Some t -> s = t ++ String LF "".
Proof.
  revert t. induction s as [|c s IH]; intros t; [discriminate|].
  cbn [chomp]. destruct s as [|c2 s2].
  - destruct (Ascii.eqb_spec c LF) as [->|]; [|discriminate]. now intros [= <-].
  - destruct (chomp (String c2 s2)) as [r|]; [|discriminate].
    intros [= <-]. cbn [append]. now rewrite <- (IH r eq_refl).
Qed.

Lemma chomp_app (t : string) : chomp (t ++ String LF "") = Some t.
Proof.
  induction t as [|c t IH]; [reflexivity|].
  cbn [append chomp]. rewrite IH. now destruct (t ++ String LF "") eqn:H; [destruct t|].
Qed.

Lemma spec_digit_label_char (c : ascii) :
  spec_digit c = true -> spec_alnum c || is_hyphen c = true /\ is_hyphen c = false.
Proof. destruct c as [[] [] [] [] [] [] [] []]; vm_compute; split; congruence. Qed.

Lemma last_char_forallb (p : ascii -> bool) (s : string) (c : ascii) :
  last_char s = Some c -> string_forallb p s = true -> p c = true.
Proof.
  induction s as [|d s IH]; [discriminate|].
  cbn [last_char string_forallb]. intros Hl Hp.
  apply andb_true_iff in Hp as [Hd Hs].
  destruct s as [|d2 s2]; [now injection Hl as <- | now apply IH].
Qed.

Lemma digit_group_label (g : str) : digit_group 1 3 g = true -> spec_label g = true.
Proof.
  unfold digit_group, spec_label. intros H.
  apply andb_true_iff in H as [H Hd]. apply andb_true_iff in H as [Hlo Hhi].
  rewrite Hlo. apply Nat.leb_le in Hhi.
  replace (String.length g <=? 63)%nat with true by (symmetry; apply Nat.leb_le; lia).
  assert (Hall : string_forallb (fun c => spec_alnum c || is_hyphen c) g = true).
  { revert Hd. apply string_forallb_impl. intros c Hc.
    now destruct (spec_digit_label_char c Hc). }
  assert (Hnh : string_forallb (fun c => negb (is_hyphen c)) g = true).
  { revert Hd. apply string_forallb_impl. intros c Hc.
    destruct (spec_digit_label_char c Hc) as [_ ->]. reflexivity. }
  rewrite Hall. cbn [andb].
  assert (Hf : match first_char g with Some c => is_hyphen c | None => false end = false).
  { destruct g as [|c r]; [reflexivity|]. cbn [first_char string_forallb] in *.
    apply andb_true_iff in Hnh as [Hc _]. now apply negb_true_iff in Hc. }
  assert (Hl : match last_char g with Some c => is_hyphen c | None => false end = false).
  { destruct (last_char g) as [c|] eqn:Hlc; [|reflexivity].
    pose proof (last_char_forallb _ _ _ Hlc Hnh) as Hc. now apply negb_true_iff in Hc. }
  now rewrite Hf, Hl.
Qed.

Lemma dotted_quad_hostname (s : str) : dotted_quad s = true -> spec_hostname s = true.
Proof.
  intros H. destruct (dotted_quad_shape _ _ H) as (a & b & c & d & Hs & _ & Ha & Hb & Hc & Hd).
  unfold spec_hostname. rewrite Hs. cbn [forallb].
  now rewrite !digit_group_label.
Qed.

Lemma address_core_hostname (t : str) : address_core t = true -> spec_hostname t = true.
Proof.
  unfold address_core. destruct (dotted_quad t) eqn:Hq; [|auto].
  intros _. now apply dotted_quad_hostname.
Qed.

Lemma hostname_no_newline (s : str) : spec_hostname s = true -> chomp s = None.
Proof.
  intros H. destruct (chomp s) as [t|] eqn:Hc; [|reflexivity].
  pose proof (chomp_some_char _ _ _ Hc (spec_hostname_chars _ H)) as Hlf.
  discriminate Hlf.
Qed.

Lemma chomp_not_hostname (s t : str) : chomp s = Some t -> spec_hostname s = false.
Proof.
  intros Hc. destruct (spec_hostname s) eqn:H; [|reflexivity].
  apply hostname_no_newline in H. congruence.
Qed.

Lemma rstrip_snoc (p : ascii -> bool) (s : string) (x : ascii) :
  p x = true -> rstrip p (s ++ String x "") = rstrip p s.
Proof.
  intros Hx. induction s as [|c s IH]; cbn [append rstrip].
  - now rewrite Hx.
  - now rewrite IH.
Qed.

Lemma py_int_newline (g : str) : digits g = true -> py_int (g ++ String LF "") = py_int g.
Proof.
  unfold digits. intros H. apply andb_true_iff in H as [Hne Hd].
  rewrite (string_forallb_ext _ _ _ spec_digit_is_digit) in Hd.
  unfold py_int. rewrite (strip_digits _ Hd). unfold strip.
  destruct g as [|c r]; [discriminate|].
  cbn [string_forallb] in Hd. apply andb_true_iff in Hd as [Hc Hr].
  cbn [append lstrip]. rewrite (digit_not_int_space _ Hc).
  change (String c (r ++ String LF "")) with (String c r ++ String LF "").
  rewrite rstrip_snoc by reflexivity.
  f_equal. apply rstrip_none. cbn [string_forallb].
  rewrite (digit_not_int_space _ Hc). cbn [negb andb].
  revert Hr. apply string_forallb_impl.
  intros d Hdd. now rewrite (digit_not_int_space _ Hdd).
Qed.

Lemma octets_with_newline (t : str) :
  dotted_quad t = true ->
  all_octets (split "." (t ++ String LF "")) = Some (forallb octet_in_range (split "." t)).
Proof.
  intros H.
  destruct (dotted_quad_shape _ _ H) as (a & b & c & d & Hs & Ht & Ha & Hb & Hc & Hd).
  rewrite Hs. apply digit_group_digits in Ha, Hb, Hc, Hd.
  assert (Hsplit : split "." (t ++ String LF "") = [a; b; c; d ++ String LF ""]).
  { rewrite Ht.
    change (a ++ "." ++ b ++ "." ++ c ++ "." ++ d)
      with (a ++ String "." (b ++ String "." (c ++ String "." d))).
    repeat (rewrite append_assoc; cbn [append]).
    rewrite !split_app_sep by now apply digits_no_dot.
    rewrite split_no_sep; [reflexivity|].
    unfold no_sep. rewrite string_forallb_app.
    apply digits_no_dot in Hd. unfold no_sep in Hd. now rewrite Hd. }
  rewrite Hsplit. cbn [all_octets forallb]. unfold octet_in_range.
  rewrite (py_int_newline d Hd).
  rewrite (py_int_digits a Ha), (py_int_digits b Hb), (py_int_digits c Hc),
    (py_int_digits d Hd).
  repeat match goal with
         | |- context [if ?x then _ else _] => destruct x; cbn [andb]; try reflexivity
         end.
Qed.

Lemma validate_is_grammar (s : str) : validate_ip_or_hostname s = spec_valid_address s.
Proof.
  unfold validate_ip_or_hostname, spec_valid_address.
  destruct (is_empty s) eqn:He.
  { apply is_empty_true in He. subst s. reflexivity. }
  cbn [existsb].
  destruct (String.eqb_spec s "localhost") as [->|_]; [reflexivity|].
  destruct (String.eqb_spec s "127.0.0.1") as [->|_]; [reflexivity|].
  cbn [orb]. unfold re_match at 1. rewrite matches_ipv4.
  destruct (dotted_quad s) eqn:Hq.
  - cbn [orb].
    destruct (dotted_quad_shape _ _ Hq) as (a & b & c & d & Hs & _ & Ha & Hb & Hc & Hd).
    rewrite (hostname_no_newline _ (dotted_quad_hostname _ Hq)), orb_false_r.
    unfold address_core. rewrite Hq, Hs, all_octets_parsed; [reflexivity|].
    cbn [forallb].
    now rewrite (digit_group_digits _ _ _ Ha), (digit_group_digits _ _ _ Hb),
      (digit_group_digits _ _ _ Hc), (digit_group_digits _ _ _ Hd).
  - cbn [orb]. rewrite match_hostname_is_pattern_1. unfold re_match.
    rewrite !matches_hostname_1.
    destruct (chomp s) as [t|] eqn:Hc.
    + rewrite matches_ipv4, matches_hostname_1.
      pose proof (chomp_not_hostname _ _ Hc) as Hns.
      unfold address_core at 1. rewrite Hq, Hns. cbn [orb].
      destruct (dotted_quad t) eqn:Hqt.
      * rewrite (chomp_inv _ _ Hc), (octets_with_newline _ Hqt).
        unfold address_core. now rewrite Hqt.
      * unfold address_core. now rewrite Hqt.
    + unfold address_core. now rewrite Hq.
Qed.

Lemma chomp_last_char (t : string) : last_char t <> Some LF -> chomp t = None.
Proof.
  intros H. destruct (chomp t) as [r|] eqn:Hc; [|reflexivity].
  apply chomp_inv in Hc. subst t. now rewrite last_char_app in H.
Qed.

Lemma address_core_newline (t : str) : address_core (t ++ String LF "") = false.
Proof.
  destruct (address_core _) eqn:H; [|reflexivity].
  apply address_core_hostname in H.
  now rewrite (chomp_not_hostname _ _ (chomp_app t)) in H.
Qed.

(** X3: on the addresses of this development (code points below 256, which
    covers every ASCII address), the validator accepts exactly the dotted
    quads of ASCII digits whose four groups are in [0,255] and the host
    names that are not dotted quads, each possibly followed by one newline;
    the tests for "localhost" and "127.0.0.1" accept nothing more. *)
Theorem validate_characterised (s : str) :
  validate_ip_or_hostname s = spec_valid_address s.
Proof. apply validate_is_grammar. Qed.

(** X4: one newline at the end of an address is ignored: an address that
    does not itself end in a newline is judged the same with a newline
    appended. *)
Theorem validate_ignores_final_newline (t : str) :
  last_char t <> Some LF ->
  validate_ip_or_hostname (t ++ String LF "") = validate_ip_or_hostname t.
Proof.
  intros H. rewrite !validate_is_grammar. unfold spec_valid_address.
  now rewrite chomp_app, (chomp_last_char _ H), address_core_newline, orb_false_r.
Qed.

Lemma validate_ignores_final_newline_witness :
  validate_ip_or_hostname ("awtrix.local" ++ String LF "") = true.
Proof.
  rewrite (validate_ignores_final_newline "awtrix.local"); [reflexivity | discriminate].
Defined.

(** X5: on the addresses of this development (code points below 256, which
    covers every ASCII address), every accepted address is a host name of
    letters, digits, hyphens and dots, possibly followed by one newline: no
    such address with a space, a colon, a slash, an at sign or a bracket is
    accepted. *)
Theorem validate_accepts_only_hostnames (s : str) :
  validate_ip_or_hostname s = true ->
  exists t, (s = t \/ s = t ++ String LF "")
            /\ spec_hostname t = true
            /\ string_forallb hostname_char t = true.
Proof.
  rewrite validate_is_grammar. unfold spec_valid_address. intros H.
  apply orb_true_iff in H as [H | H].
  - exists s. apply address_core_hostname in H.
    split; [now left|]. split; [exact H | now apply spec_hostname_chars].
  - destruct (chomp s) as [t|] eqn:Hc; [|discriminate].
    exists t. apply address_core_hostname in H. apply chomp_inv in Hc.
    split; [now right|]. split; [exact H | now apply spec_hostname_chars].
Qed.

Lemma validate_accepts_only_hostnames_witness :
  exists t, ("10.0.0.7" = t \/ "10.0.0.7" = t ++ String LF "")
            /\ spec_hostname t = true
            /\ string_forallb hostname_char t = true.
Proof. apply validate_accepts_only_hostnames. reflexivity. Defined.

(** ** More on sanitize_icon_name *)

Lemma rstrip_last (p : ascii -> bool) (s : string) (c : ascii) :
  last_char (rstrip p s) = Some c -> p c = false.
Proof.
  induction s as [|d s IH]; [discriminate|]. cbn [rstrip].
  destruct (rstrip p s) as [|e r] eqn:Hr.
  - destruct (p d) eqn:Hd; [discriminate|]. now intros [= <-].
  - exact IH.
Qed.

Lemma rstrip_keeps (p : ascii -> bool) (s : string) :
  (forall c, last_char s = Some c -> p c = false) -> rstrip p s = s.
Proof.
  induction s as [|d s IH]; [reflexivity|]. intros H. cbn [rstrip].
  destruct s as [|e r].
  - cbn [rstrip]. now rewrite (H d eq_refl).
  - rewrite IH by (intros c Hc; apply H; exact Hc). reflexivity.
Qed.

Lemma strip_fixed (p : ascii -> bool) (s : string) :
  strip p s = s <->
  (forall c, first_char s = Some c -> p c = false)
  /\ (forall c, last_char s = Some c -> p c = false).
Proof.
  unfold strip. split.
  - intros H. split; intros c Hc.
    + pose proof (lstrip_head p s) as Hh. destruct s as [|d r]; [discriminate|].
      injection Hc as <-. destruct (lstrip p (String d r)) as [|e u] eqn:Hl;
        [discriminate|].
      destruct (rstrip_head p e u Hh) as [r' Hr]. rewrite Hr in H.
      now injection H as -> _.
    + rewrite <- H in Hc. exact (rstrip_last _ _ _ Hc).
  - intros [Hf Hl].
    assert (Hls : lstrip p s = s).
    { destruct s as [|d r]; [reflexivity|]. cbn [lstrip]. now rewrite (Hf d eq_refl). }
    rewrite Hls. now apply rstrip_keeps.
Qed.

Lemma char_in_underscore_false (c : ascii) : char_in "_" c = false <-> c <> "_"%char.
Proof.
  rewrite char_in_underscore. unfold is_underscore.
  destruct (Ascii.eqb_spec c "_"); split; congruence.
Qed.

(** X6: the names the sanitizer leaves unchanged are exactly the non-empty
    names made of letters, digits, hyphens and underscores that neither
    start nor end with an underscore. *)
Theorem sanitize_unchanged_iff (s : str) :
  sanitize_icon_name s = s <->
  s <> ""
  /\ string_forallb spec_allowed s = true
  /\ first_char s <> Some "_"%char
  /\ last_char s <> Some "_"%char.
Proof.
  split.
  - intros H.
    pose proof (sanitize_nonempty s) as Hne.
    pose proof (sanitize_safe s) as Hsafe.
    pose proof (sanitize_stripped s) as Hst.
    rewrite H in Hne, Hsafe, Hst. unfold str_strip in Hst.
    apply strip_fixed in Hst as [Hf Hl].
    split; [exact Hne|].
    split; [now rewrite <- (string_forallb_ext _ _ _ safe_chars_allowed)|].
    split; intros Hc.
    + specialize (Hf _ Hc). discriminate Hf.
    + specialize (Hl _ Hc). discriminate Hl.
  - intros (Hne & Hsafe & Hf & Hl). apply sanitize_fixpoint; [| |exact Hne].
    + now rewrite (string_forallb_ext _ _ _ safe_chars_allowed).
    + apply strip_fixed. split; intros c Hc; apply char_in_underscore_false; congruence.
Qed.

Lemma lstrip_all (p : ascii -> bool) (s : string) :
  string_forallb p s = true -> lstrip p s = "".
Proof.
  induction s as [|c s IH]; cbn [string_forallb lstrip]; [reflexivity|].
  intros H. apply andb_true_iff in H as [-> Hs]. now apply IH.
Qed.

Lemma not_kept_replaced (c : ascii) :
  kept_char c = false ->
  (if in_set safe_chars c then c else "_"%char) = "_"%char.
Proof. destruct c as [[] [] [] [] [] [] [] []]; vm_compute; congruence. Qed.

Lemma re_sub1_as_map (s : str) :
  re_sub1 (NotInSet safe_chars) "_" s =
  string_map (fun c => if in_set safe_chars c then c else "_"%char) s.
Proof.
  induction s as [|c s IH]; cbn [re_sub1 string_map]; [reflexivity|].
  rewrite matches_not_in_set, IH. now destruct (in_set safe_chars c).
Qed.

(** X7: a name without any letter, digit or hyphen is sanitized to the
    fallback name "icon". *)
Theorem sanitize_fallback (s : str) :
  string_forallb (fun c => negb (kept_char c)) s = true ->
  sanitize_icon_name s = "icon".
Proof.
  intros H. unfold sanitize_icon_name, str_strip, strip.
  rewrite re_sub1_as_map, lstrip_all; [reflexivity|].
  induction s as [|c s IH]; cbn [string_map string_forallb] in *; [reflexivity|].
  apply andb_true_iff in H as [Hc Hs]. apply negb_true_iff in Hc.
  rewrite (not_kept_replaced c Hc), (IH Hs). reflexivity.
Qed.

Lemma sanitize_fallback_witness : sanitize_icon_name "_!? _" = "icon".
Proof. apply sanitize_fallback. reflexivity. Defined.

Lemma filter_lstrip (k p : ascii -> bool) (s : string) :
  (forall c, p c = true -> k c = false) ->
  string_filter k (lstrip p s) = string_filter k s.
Proof.
  intros Hpk. induction s as [|c s IH]; cbn [lstrip string_filter]; [reflexivity|].
  destruct (p c) eqn:Hc; [|reflexivity]. now rewrite (Hpk c Hc).
Qed.

Lemma filter_rstrip (k p : ascii -> bool) (s : string) :
  (forall c, p c = true -> k c = false) ->
  string_filter k (rstrip p s) = string_filter k s.
Proof.
  intros Hpk. induction s as [|c s IH]; cbn [rstrip string_filter]; [reflexivity|].
  destruct (rstrip p s) as [|d r] eqn:Hr.
  - cbn [string_filter] in IH. rewrite <- IH.
    destruct (p c) eqn:Hc; [now rewrite (Hpk c Hc)|].
    cbn [string_filter]. now destruct (k c).
  - change (string_filter k (String c (String d r)))
      with (if k c then String c (string_filter k (String d r))
            else string_filter k (String d r)).
    now rewrite IH.
Qed.

Lemma kept_char_replaced (c : ascii) :
  kept_char (if in_set safe_chars c then c else "_"%char) = kept_char c
  /\ (kept_char c = true -> in_set safe_chars c = true).
Proof. destruct c as [[] [] [] [] [] [] [] []]; vm_compute; split; congruence. Qed.

Lemma filter_re_sub1 (s : str) :
  string_filter kept_char (re_sub1 (NotInSet safe_chars) "_" s)
  = string_filter kept_char s.
Proof.
  rewrite re_sub1_as_map.
  induction s as [|c s IH]; cbn [string_map string_filter]; [reflexivity|].
  destruct (kept_char_replaced c) as [Hk Hsafe]. rewrite Hk, IH.
  destruct (kept_char c) eqn:Hc; [|reflexivity].
  now rewrite (Hsafe eq_refl).
Qed.

Lemma underscore_not_kept (c : ascii) : char_in "_" c = true -> kept_char c = false.
Proof. destruct c as [[] [] [] [] [] [] [] []]; vm_compute; congruence. Qed.

(** X8: sanitizing keeps the letters, digits and hyphens of a name, all of
    them and in their order, whenever the name has any. *)
Theorem sanitize_keeps_letters (s : str) :
  string_filter kept_char s <> "" ->
  string_filter kept_char (sanitize_icon_name s) = string_filter kept_char s.
Proof.
  intros Hne. unfold sanitize_icon_name, str_strip, strip.
  assert (Hf : string_filter kept_char
                 (rstrip (char_in "_") (lstrip (char_in "_")
                    (re_sub1 (NotInSet safe_chars) "_" s)))
               = string_filter kept_char s).
  { rewrite filter_rstrip, filter_lstrip by apply underscore_not_kept.
    apply filter_re_sub1. }
  destruct (rstrip _ _) as [|c r]; [|exact Hf].
  cbn [string_filter] in Hf. congruence.
Qed.

Lemma sanitize_keeps_letters_witness :
  string_filter kept_char (sanitize_icon_name "_my icon!@#") = "myicon".
Proof.
  rewrite (sanitize_keeps_letters "_my icon!@#"); [reflexivity | discriminate].
Defined.

(** ** More on process_icon *)

Lemma download_returns (E : Env) (icon_id : Z) (tr : trace) (found : bytes * str)
    (tr1 : trace) :
  download_icon E icon_id tr = (Ret found, tr1) ->
  fst found <> "" /\ (snd found = "gif" \/ snd found = "png").
Proof.
  rewrite download_icon_outcome.
  destruct (attempt_of (server E tr _)) as [b1 | | e1] eqn:H1.
  - intros [= <- _]. split; [exact (attempt_hit_nonempty _ _ H1) | now left].
  - destruct (attempt_of (server E _ (get_request icon_id "png"))) as [b2 | | e2] eqn:H2;
      try discriminate.
    intros [= <- _]. split; [exact (attempt_hit_nonempty _ _ H2) | now right].
  - discriminate.
Qed.

Lemma network_calls_app (a b : trace) :
  network_calls (a ++ b)%list = (network_calls a ++ network_calls b)%list.
Proof. apply filter_app. Qed.

(** X9: [process_icon] reports success exactly when the download returns
    and the call of [urlopen] that uploads the downloaded bytes ends with a
    reply of status 200 or 201. *)
Theorem process_icon_true_iff (E : Env) (device name : str) (icon_id : Z) (tr : trace) :
  let tr0 := (tr ++ [Printed (processing_line (name, icon_id))])%list in
  fst (process_icon E device name icon_id tr) = Ret true <->
  exists icon_data ext tr1 st reason body,
    download_icon E icon_id tr0 = (Ret (icon_data, ext), tr1)
    /\ server E tr1 (upload_request device (boundary_of (uuid4_hex E tr1))
                       (sanitize_icon_name name) icon_data ext)
       = Reply st reason body
    /\ (st = 200 \/ st = 201)%Z.
Proof.
  cbv zeta. rewrite process_icon_outcome. cbv zeta.
  destruct (download_icon E icon_id _) as [[[icon_data ext] | e] tr1].
  - rewrite upload_outcome.
    destruct (server E tr1 _) as [st reason body | e] eqn:Hs.
    + destruct ((st =? 200)%Z || (st =? 201)%Z) eqn:Hst; cbn [fst].
      * split; [|reflexivity]. intros _.
        exists icon_data, ext, tr1, st, reason, body.
        split; [reflexivity|]. split; [exact Hs|].
        apply orb_true_iff in Hst as [H | H]; apply Z.eqb_eq in H; auto.
      * split; [discriminate|].
        intros (d' & x' & t' & st' & r' & b' & [= <- <- <-] & Hs' & Hst').
        rewrite Hs in Hs'. injection Hs' as <- _ _.
        apply orb_false_iff in Hst as [H1 H2].
        apply Z.eqb_neq in H1, H2. lia.
    + split.
      * destruct (is_OSError e); cbn [fst]; [discriminate|].
        destruct (handled e); cbn [fst]; discriminate.
      * intros (d' & x' & t' & st' & r' & b' & [= <- <- <-] & Hs' & _). congruence.
  - split.
    + destruct (handled e); cbn [fst]; discriminate.
    + intros (d' & x' & t' & st' & r' & b' & Hd & _). discriminate.
Qed.

(** X10: [process_icon] makes no call to the device when the download
    fails; when the download returns, it calls [urlopen] for the device
    exactly once, after the download, and the single part of the request it
    passes carries the downloaded bytes, which are not empty, under the name
    [/ICONS/<sanitized name>.<format>] with the format gif or png that was
    found. *)
Theorem process_icon_uploads_download (E : Env) (device name : str) (icon_id : Z)
    (tr : trace) :
  let tr0 := (tr ++ [Printed (processing_line (name, icon_id))])%list in
  match download_icon E icon_id tr0 with
  | (Ret (icon_data, ext), tr1) =>
      exists req,
        network_calls (snd (process_icon E device name icon_id tr)) =
          (network_calls tr1 ++ [Opened req REQUEST_TIMEOUT])%list
        /\ full_url req = "http://" ++ device ++ "/edit"
        /\ data req =
           Some (render_multipart (boundary_of (uuid4_hex E tr1))
                   [Part "data" ("/ICONS/" ++ sanitize_icon_name name ++ "." ++ ext)
                      ("image/" ++ ext) icon_data])
        /\ icon_data <> ""
        /\ (ext = "gif" \/ ext = "png")
  | (Raise e, tr1) =>
      network_calls (snd (process_icon E device name icon_id tr)) = network_calls tr1
  end.
Proof.
  cbv zeta. rewrite process_icon_outcome. cbv zeta.
  destruct (download_icon E icon_id _) as [[[icon_data ext] | e] tr1] eqn:Hd.
  - destruct (download_returns _ _ _ _ _ Hd) as [Hne Hext]. cbn [fst snd] in Hne, Hext.
    exists (upload_request device (boundary_of (uuid4_hex E tr1))
              (sanitize_icon_name name) icon_data ext).
    split.
    + pose proof (upload_opens_once E device name icon_data ext tr1) as Hu.
      cbv zeta in Hu.
      destruct (upload_icon_to_awtrix E device name icon_data ext tr1) as [[ok | e] tr2];
        cbn [snd] in Hu |- *; [exact Hu|].
      destruct (handled e); cbn [snd]; [|exact Hu].
      rewrite network_calls_app, Hu. cbn. now rewrite app_nil_r.
    + unfold upload_request. cbn [full_url data]. rewrite upload_body_rendered.
      repeat split; assumption.
  - destruct (handled e); cbn [snd]; [|reflexivity].
    rewrite network_calls_app. cbn. now rewrite app_nil_r.
Qed.

(** X20: what an upload returns, by what its one call of [urlopen] ends
    with.  A reply of status 200 or 201 gives true and the line that names
    the uploaded file; every other reply gives false and one line of
    diagnostic, with the status for another success status and with the
    HTTP error otherwise; an exception of class [OSError], which covers
    [URLError], connection failures and timeouts, gives false and one line
    with the text of the exception; an exception of any other class leaves
    the upload with nothing printed. *)
Theorem upload_result_table (E : Env) (device name : str) (icon_data : bytes)
    (ext : str) (tr : trace) :
  let req := upload_request device (boundary_of (uuid4_hex E tr))
               (sanitize_icon_name name) icon_data ext in
  let tr1 := (tr ++ [Opened req REQUEST_TIMEOUT])%list in
  upload_icon_to_awtrix E device name icon_data ext tr =
  match server E tr req with
  | Reply st reason _ =>
      if (st =? 200)%Z || (st =? 201)%Z then
        (Ret true, (tr1 ++ [Printed (uploaded_line name ext)])%list)
      else
        (Ret false,
         (tr1 ++ [Printed (if success_status st then upload_status_line st
                           else upload_failed_line (HTTPError st reason))])%list)
  | Failure e =>
      if is_OSError e then (Ret false, (tr1 ++ [Printed (upload_failed_line e)])%list)
      else (Raise e, tr1)
  end.
Proof. apply upload_outcome. Qed.

(** ** The table of icons built by main *)

Lemma dict_get_set_same (k : str) (v : Z) (d : dict) :
  dict_get k (dict_set k v d) = Some v.
Proof.
  induction d as [|[k' v'] d IH]; cbn [dict_set dict_get].
  - now rewrite String.eqb_refl.
  - destruct (String.eqb k k') eqn:Hk; cbn [dict_get]; rewrite ?String.eqb_refl, ?Hk;
      [reflexivity | exact IH].
Qed.

Lemma dict_get_set_other (k k' : str) (v : Z) (d : dict) :
  k' <> k -> dict_get k' (dict_set k v d) = dict_get k' d.
Proof.
  intros Hne. induction d as [|[k2 v2] d IH]; cbn [dict_set dict_get].
  - now destruct (String.eqb_spec k' k).
  - destruct (String.eqb_spec k k2) as [->|Hk]; cbn [dict_get].
    + now destruct (String.eqb_spec k' k2).
    + now rewrite IH.
Qed.

Lemma dict_set_keys (k k' : str) (v : Z) (d : dict) :
  In k' (map fst (dict_set k v d)) <-> k' = k \/ In k' (map fst d).
Proof.
  induction d as [|[k2 v2] d IH]; cbn [dict_set map fst In].
  - intuition.
  - destruct (String.eqb_spec k k2) as [->|Hk]; cbn [map fst In]; [intuition|].
    rewrite IH. intuition.
Qed.

Lemma dict_set_nodup (k : str) (v : Z) (d : dict) :
  NoDup (map fst d) -> NoDup (map fst (dict_set k v d)).
Proof.
  induction d as [|[k2 v2] d IH]; cbn [dict_set map fst]; intros H.
  - constructor; [intros [] | constructor].
  - inversion H as [|? ? Hnin Hnd]; subst.
    destruct (String.eqb_spec k k2) as [->|Hk]; cbn [map fst]; [now constructor|].
    constructor; [|now apply IH].
    rewrite dict_set_keys. intros [-> | Hin]; [congruence | contradiction].
Qed.

Lemma dict_set_positive (k : str) (v : Z) (d : dict) :
  (0 < v)%Z -> positive_ids d -> positive_ids (dict_set k v d).
Proof.
  intros Hv. unfold positive_ids.
  induction d as [|[k2 v2] d IH]; cbn [dict_set]; intros H.
  - now repeat constructor.
  - inversion H; subst.
    destruct (String.eqb k k2); constructor; auto.
Qed.

Lemma merge_icons_table (pairs : list (str * str)) :
  forall d d',
    merge_icons pairs d = Some d' ->
    (NoDup (map fst d) -> NoDup (map fst d'))
    /\ (positive_ids d -> positive_ids d')
    /\ forall name,
         dict_get name d' =
         match last_given name pairs with
         | Some i => py_int i
         | None => dict_get name d
         end.
Proof.
  induction pairs as [|[n i] rest IH]; intros d d'; cbn [merge_icons last_given].
  - intros [= <-]. auto.
  - destruct (py_int i) as [v|] eqn:Hi; [|discriminate].
    destruct (0 <? v)%Z eqn:Hv; [|discriminate].
    apply Z.ltb_lt in Hv. intros Hm.
    destruct (IH _ _ Hm) as (Hnd & Hpos & Hget).
    split; [intros H; now apply Hnd, dict_set_nodup|].
    split; [intros H; now apply Hpos, dict_set_positive|].
    intros name. rewrite Hget.
    destruct (last_given name rest); [reflexivity|].
    destruct (String.eqb_spec name n) as [->|Hne].
    + now rewrite dict_get_set_same.
    + now apply dict_get_set_other.
Qed.

Lemma add_icons_merge (pairs : list (str * str)) (d d' : dict) (tr tr' : trace) :
  add_icons pairs d tr = (Ret (inl d'), tr') ->
  merge_icons pairs d = Some d' /\ tr' = tr.
Proof.
  pose proof (add_icons_outcome pairs d tr) as H.
  destruct (merge_icons pairs d) as [d''|].
  - rewrite H. now intros [= <- <-].
  - destruct H as (line & -> & _). discriminate.
Qed.

(** X11: the table of icons keeps distinct names and positive ids: when
    the loop over the given pairs ends without error, it has printed
    nothing, and a table with distinct names and positive ids stays so;
    both tables the loop can start from, the empty one and the default
    icons, are of that kind. *)
Theorem add_icons_keeps_table (pairs : list (str * str)) (d d' : dict)
    (tr tr' : trace) :
  add_icons pairs d tr = (Ret (inl d'), tr') ->
  tr' = tr
  /\ (NoDup (map fst d) -> NoDup (map fst d'))
  /\ (positive_ids d -> positive_ids d')
  /\ NoDup (map fst (dict_update [] DEFAULT_ICONS))
  /\ positive_ids (dict_update [] DEFAULT_ICONS).
Proof.
  intros H. apply add_icons_merge in H as [Hm ->].
  destruct (merge_icons_table _ _ _ Hm) as (Hnd & Hpos & _).
  split; [reflexivity|]. split; [exact Hnd|]. split; [exact Hpos|].
  split.
  - cbv [dict_update DEFAULT_ICONS fold_left]. cbn.
    repeat constructor; cbn; intuition discriminate.
  - cbv [dict_update DEFAULT_ICONS fold_left]. cbn.
    unfold positive_ids. repeat constructor; cbn; lia.
Qed.

Lemma add_icons_keeps_table_witness :
  let d' := [("stock-up", 7%Z); ("stock-down", 40176%Z); ("stock-neutral", 40161%Z);
             ("mine", 12%Z)] in
  NoDup (map fst d') /\ positive_ids d'.
Proof.
  intros d'.
  destruct (add_icons_keeps_table [("mine", "12"); ("stock-up", "7")]
              (dict_update [] DEFAULT_ICONS) d' [] [] eq_refl)
    as (_ & Hnd & Hpos & Hnd0 & Hpos0).
  split; [exact (Hnd Hnd0) | exact (Hpos Hpos0)].
Defined.

(** X12: a name given more than once gets the id given last, and a given
    name replaces a default icon of that name: after the loop over the
    pairs, the table maps a name to the id of the last pair with that name,
    and to what it mapped to before when no pair has that name. *)
Theorem add_icons_last_wins (pairs : list (str * str)) (d d' : dict)
    (tr tr' : trace) (name : str) :
  add_icons pairs d tr = (Ret (inl d'), tr') ->
  dict_get name d' =
  match last_given name pairs with
  | Some i => py_int i
  | None => dict_get name d
  end.
Proof.
  intros H. apply add_icons_merge in H as [Hm _].
  now destruct (merge_icons_table _ _ _ Hm) as (_ & _ & Hget).
Qed.

Lemma add_icons_last_wins_witness :
  let d' := [("stock-up", 7%Z); ("stock-down", 40176%Z); ("stock-neutral", 40161%Z);
             ("mine", 12%Z)] in
  dict_get "stock-up" d' = Some 7%Z
  /\ dict_get "mine" d' = Some 12%Z
  /\ dict_get "stock-down" d' = Some 40176%Z.
Proof.
  intros d'.
  assert (H : add_icons [("mine", "3"); ("stock-up", "7"); ("mine", "12")]
                (dict_update [] DEFAULT_ICONS) [] = (Ret (inl d'), [])) by reflexivity.
  split; [|split].
  - exact (add_icons_last_wins _ _ _ _ _ "stock-up" H).
  - exact (add_icons_last_wins _ _ _ _ _ "mine" H).
  - exact (add_icons_last_wins _ _ _ _ _ "stock-down" H).
Defined.

(** ** More on main *)

(** X13: whatever the parsed command line, the console and the network, the
    exit status of a run of [main] from that command line is 0 or 1. *)
Theorem main_exit_status_binary (E : Env) (a : args) (tr : trace) :
  exit_status (main E a tr) = 0%Z \/ exit_status (main E a tr) = 1%Z.
Proof.
  destruct (list_default a) eqn:Hld.
  { left. now apply main_list_default. }
  destruct (device_of E a tr) as [device|] eqn:Hdev.
  - destruct (validate_ip_or_hostname device) eqn:Hval.
    + destruct (requested a) as [[|item items]|] eqn:Hreq.
      * right. apply main_fatal; auto.
      * apply (main_batch_exit E a tr device (item :: items)); auto. discriminate.
      * right. apply main_fatal; auto.
    + right. apply main_fatal; [assumption|]. right. left. eauto.
  - right. apply main_fatal; auto.
Qed.

Lemma process_icon_accepting (E : Env) (device name : str) (icon_id : Z) (tr : trace) :
  accepting E -> exists tr', process_icon E device name icon_id tr = (Ret true, tr').
Proof.
  intros HE. rewrite process_icon_outcome. cbv zeta.
  rewrite download_icon_outcome. cbv zeta.
  destruct (HE (tr ++ [Printed (processing_line (name, icon_id))])%list
               (get_request icon_id "gif")) as (st & reason & body & -> & Hst & Hb).
  assert (Hs : forall st', (st' = 200 \/ st' = 201)%Z ->
                           success_status st' = true
                           /\ (st' =? 200)%Z || (st' =? 201)%Z = true).
  { intros st' [-> | ->]; now split. }
  cbn [attempt_of]. rewrite (proj1 (Hs st Hst)), Hb.
  rewrite upload_outcome.
  match goal with
  | |- context [server E ?t ?r] =>
      destruct (HE t r) as (st2 & reason2 & body2 & -> & Hst2 & _)
  end.
  rewrite (proj2 (Hs st2 Hst2)). eauto.
Qed.

Lemma batch_accepting (E : Env) (device : str) (items : dict) :
  accepting E ->
  forall tr, exists oks tr',
    batch E device items tr = (Ret oks, tr')
    /\ forallb (fun b : bool => b) oks = true.
Proof.
  intros HE. induction items as [|[name icon_id] rest IH]; intros tr; cbn [batch].
  - exists [], tr. now split.
  - destruct (process_icon_accepting E device name icon_id tr HE) as [tr1 H1].
    destruct (IH tr1) as (oks & tr' & Hb & Hall).
    exists (true :: oks), tr'. unfold bind, ret. rewrite H1, Hb. now split.
Qed.

(** X14: against a catalog and a device where every call of [urlopen] ends
    with a reply of status 200 or 201 and a body that is not empty, a run with a valid
    address and a table of n icons exits with 0 and ends by printing
    "Summary: n/n icons uploaded successfully". *)
Theorem main_all_uploaded (E : Env) (a : args) (tr : trace) (device : str)
    (items : dict) :
  accepting E ->
  list_default a = false ->
  device_of E a tr = Some device ->
  validate_ip_or_hostname device = true ->
  requested a = Some items ->
  items <> [] ->
  let n := Z.of_nat (List.length items) in
  exit_status (main E a tr) = 0%Z
  /\ exists tr', snd (main E a tr) = (tr' ++ [Printed (summary_line n n)])%list.
Proof.
  intros HE Hld Hdev Hval Hreq Hne n.
  rewrite (main_after_address E a tr device Hld Hdev Hval), Hreq.
  destruct items as [|item items]; [congruence|]. cbv zeta.
  destruct (batch_accepting E device (item :: items) HE
              (batch_start a tr device (item :: items))) as (oks & tr' & Hb & Hall).
  rewrite Hb. pose proof (batch_length _ _ _ _ _ _ Hb) as Hlen.
  apply tally_all_true in Hall. rewrite Hlen in Hall. fold n in Hall |- *.
  rewrite Hall, Z.eqb_refl. unfold exit_status. cbn [fst snd].
  split; [reflexivity|]. eexists. reflexivity.
Qed.

Lemma main_all_uploaded_witness :
  let E := constant_env (Reply 200 "OK" "GIF89a") in
  let a := Args (Some "192.168.1.100") true None false in
  exit_status (main E a []) = 0%Z
  /\ exists tr', snd (main E a []) = (tr' ++ [Printed (summary_line 3 3)])%list.
Proof.
  intros E a.
  assert (HE : accepting E).
  { intros tr req. exists 200%Z, "OK", "GIF89a". repeat split. now left. }
  assert (Hne : DEFAULT_ICONS <> []) by discriminate.
  exact (main_all_uploaded E a [] "192.168.1.100" DEFAULT_ICONS HE
           eq_refl eq_refl eq_refl eq_refl Hne).
Defined.







(** X16: when the batch runs to its end, the last line printed is the
    summary "k/n", with n the number of icons of the table and k the number
    of them for which [process_icon] reported success, and the run returns 0
    when k = n and 1 otherwise. *)
Theorem main_summary_reports_tally (E : Env) (a : args) (tr : trace) (device : str)
    (items : dict) (oks : list bool) (tr' : trace) :
  list_default a = false ->
  device_of E a tr = Some device ->
  validate_ip_or_hostname device = true ->
  requested a = Some items ->
  items <> [] ->
  batch E device items (batch_start a tr device items) = (Ret oks, tr') ->
  let n := Z.of_nat (List.length items) in
  main E a tr =
  (Ret (if (tally oks =? n)%Z then 0 else 1)%Z,
   (((tr' ++ [Printed ""]) ++ [Printed rule])
    ++ [Printed (summary_line (tally oks) n)])%list)
  /\ List.length oks = List.length items.
Proof.
  intros Hld Hdev Hval Hreq Hne Hb n.
  rewrite (main_after_address E a tr device Hld Hdev Hval), Hreq.
  destruct items as [|item items]; [congruence|]. cbv zeta.
  rewrite Hb. split; [reflexivity | exact (batch_length _ _ _ _ _ _ Hb)].
Qed.

Lemma main_summary_reports_tally_witness :
  let E := sample_catalog in
  let a := Args (Some "awtrix.local") false
             (Some [("stock-up", "1"); ("stock-down", "2"); ("stock-neutral", "3")])
             false in
  exists tr',
    main E a [] =
    (Ret 1%Z,
     (((tr' ++ [Printed ""]) ++ [Printed rule]) ++ [Printed (summary_line 2 3)])%list).
Proof.
  intros E a.
  assert (Hne : [("stock-up", 1%Z); ("stock-down", 2%Z); ("stock-neutral", 3%Z)] <> [])
    by discriminate.
  eexists.
  refine (proj1 (main_summary_reports_tally E a [] "awtrix.local"
                   [("stock-up", 1%Z); ("stock-down", 2%Z); ("stock-neutral", 3%Z)]
                   [true; false; true] _ eq_refl eq_refl eq_refl eq_refl Hne _)).
  vm_compute. reflexivity.
Defined.

Lemma merge_icons_names (pairs : list (str * str)) :
  forall d d' name,
    merge_icons pairs d = Some d' ->
    (In name (map fst d') <-> In name (map fst d) \/ In name (map fst pairs)).
Proof.
  induction pairs as [|[n i] rest IH]; intros d d' name; cbn [merge_icons map fst In].
  - intros [= <-]. tauto.
  - destruct (py_int i) as [v|]; [|discriminate].
    destruct (0 <? v)%Z; [|discriminate]. intros Hm.
    rewrite (IH _ _ name Hm), dict_set_keys.
    split; intros H; repeat destruct H as [H | H]; subst; auto.
Qed.

(** X17: after the loop over the given pairs, the table holds exactly the
    names it held before and the names of the pairs. *)
Theorem add_icons_names (pairs : list (str * str)) (d d' : dict) (tr tr' : trace)
    (name : str) :
  add_icons pairs d tr = (Ret (inl d'), tr') ->
  (In name (map fst d') <-> In name (map fst d) \/ In name (map fst pairs)).
Proof.
  intros H. apply add_icons_merge in H as [Hm _]. now apply merge_icons_names.
Qed.

Lemma add_icons_names_witness :
  In "mine" (map fst [("stock-up", 7%Z); ("stock-down", 40176%Z);
                      ("stock-neutral", 40161%Z); ("mine", 12%Z)]).
Proof.
  apply (add_icons_names [("mine", "12"); ("stock-up", "7")]
           (dict_update [] DEFAULT_ICONS) _ [] [] "mine" eq_refl).
  right. left. reflexivity.
Defined.

(** ** The prompt *)

Lemma unasked_refl (tr : trace) : grows_unasked tr tr.
Proof. exists []. now rewrite app_nil_r. Qed.

Lemma unasked_trans (a b c : trace) :
  grows_unasked a b -> grows_unasked b c -> grows_unasked a c.
Proof.
  intros (e1 & -> & H1) (e2 & -> & H2). exists (e1 ++ e2)%list.
  split; [now rewrite app_assoc|].
  unfold asked in *. now rewrite filter_app, H1, H2.
Qed.

Lemma unasked_step (tr : trace) (ev : event) :
  is_asked ev = false -> grows_unasked tr (tr ++ [ev])%list.
Proof. intros H. exists [ev]. split; [reflexivity|]. unfold asked. simpl. now rewrite H. Qed.

Lemma unasked_asked (tr tr' : trace) : grows_unasked tr tr' -> asked tr' = asked tr.
Proof.
  intros (evs & -> & H). unfold asked in *. now rewrite filter_app, H, app_nil_r.
Qed.

Ltac unasked :=
  repeat first
    [ apply unasked_refl
    | apply unasked_step; reflexivity
    | eapply unasked_trans; [|apply unasked_step; reflexivity] ].

Lemma download_icon_unasked (E : Env) (icon_id : Z) (tr : trace) :
  grows_unasked tr (snd (download_icon E icon_id tr)).
Proof.
  rewrite download_icon_outcome.
  destruct (attempt_of (server E tr _)); cbn [snd]; [unasked | | unasked].
  destruct (attempt_of (server E _ _)); cbn [snd]; unasked.
Qed.

Lemma upload_unasked (E : Env) (device name : str) (icon_data : bytes) (ext : str)
    (tr : trace) :
  grows_unasked tr (snd (upload_icon_to_awtrix E device name icon_data ext tr)).
Proof.
  rewrite upload_outcome.
  destruct (server E tr _) as [st reason body | e].
  - destruct ((st =? 200)%Z || (st =? 201)%Z); cbn [snd]; unasked.
  - destruct (is_OSError e); cbn [snd]; unasked.
Qed.

Lemma process_icon_unasked (E : Env) (device name : str) (icon_id : Z) (tr : trace) :
  grows_unasked tr (snd (process_icon E device name icon_id tr)).
Proof.
  rewrite process_icon_outcome. cbv zeta.
  set (tr0 := (tr ++ [Printed (processing_line (name, icon_id))])%list).
  assert (H0 : grows_unasked tr tr0) by (apply unasked_step; reflexivity).
  pose proof (download_icon_unasked E icon_id tr0) as Hd.
  destruct (download_icon E icon_id tr0) as [[[icon_data ext] | e] tr1]; cbn [snd] in Hd.
  - pose proof (upload_unasked E device name icon_data ext tr1) as Hu.
    destruct (upload_icon_to_awtrix E device name icon_data ext tr1) as [[ok | e] tr2];
      cbn [snd] in Hu.
    + exact (unasked_trans _ _ _ H0 (unasked_trans _ _ _ Hd Hu)).
    + destruct (handled e); cbn [snd].
      * eapply unasked_trans; [exact H0|]. eapply unasked_trans; [exact Hd|].
        eapply unasked_trans; [exact Hu | now apply unasked_step].
      * exact (unasked_trans _ _ _ H0 (unasked_trans _ _ _ Hd Hu)).
  - destruct (handled e); cbn [snd].
    + eapply unasked_trans; [exact H0|].
      eapply unasked_trans; [exact Hd | now apply unasked_step].
    + exact (unasked_trans _ _ _ H0 Hd).
Qed.

Lemma batch_unasked (E : Env) (device : str) (items : dict) :
  forall tr, grows_unasked tr (snd (batch E device items tr)).
Proof.
  induction items as [|[name icon_id] rest IH]; intros tr; cbn [batch].
  - apply unasked_refl.
  - unfold bind at 1.
    pose proof (process_icon_unasked E device name icon_id tr) as Hp.
    destruct (process_icon E device name icon_id tr) as [[ok | e] tr1]; cbn [snd] in *;
      [|exact Hp].
    unfold bind, ret. specialize (IH tr1).
    destruct (batch E device rest tr1) as [[oks | e] tr2]; cbn [snd] in *;
      exact (unasked_trans _ _ _ Hp IH).
Qed.

Lemma asked_preamble (a : args) (tr : trace) :
  asked (preamble a tr) =
  (asked tr ++ (if address_given a then [] else [Asked prompt_text]))%list.
Proof.
  unfold preamble, asked. destruct (address_given a).
  - now rewrite app_nil_r.
  - rewrite !filter_app. cbn [filter is_asked]. now rewrite !app_nil_r.
Qed.

Lemma address_given_device (E : Env) (a : args) (tr : trace) :
  device_of E a tr = None -> address_given a = false.
Proof.
  unfold device_of, address_given. now destruct (device_ip a) as [[|c r]|].
Qed.

Lemma get_device_ip_asked (E : Env) (a : args) (tr : trace) :
  address_given a = false ->
  asked (snd (get_device_ip E a tr)) = (asked tr ++ [Asked prompt_text])%list.
Proof.
  unfold address_given, get_device_ip.
  assert (Hprompt : forall k : M (str + Z),
            k = (print "AWTRIX Device IP Address" ;;;
                 print rule ;;;
                 l <- input E prompt_text ;;
                 (let device_ip := str_strip_ws l in
                  if is_empty device_ip
                  then print "Error: No IP address provided" ;;; ret (inr 1%Z)
                  else ret (inl device_ip))) ->
            asked (snd (k tr)) = (asked tr ++ [Asked prompt_text])%list).
  { intros k ->. unfold bind, print, emit, input, ret, asked.
    destruct (stdin_line E _) as [l|]; [destruct (is_empty (str_strip_ws l))|];
      cbn [snd]; rewrite !filter_app; cbn [filter is_asked];
      now rewrite ?app_nil_r. }
  destruct (device_ip a) as [[|c r]|]; intros H; try discriminate;
    exact (Hprompt _ eq_refl).
Qed.

(** X18: the address is asked for at most once, and only when it is needed:
    a run reads the standard input exactly once, with the prompt, when
    the default icons are not merely listed and the command line gives no
    address, and never otherwise. *)
Theorem main_prompts_once (E : Env) (a : args) (tr : trace) :
  asked (snd (main E a tr)) =
  (asked tr ++ (if list_default a || address_given a then []
                else [Asked prompt_text]))%list.
Proof.
  destruct (list_default a) eqn:Hld.
  { cbn [orb]. rewrite app_nil_r. apply unasked_asked.
    unfold main. rewrite Hld. unfold DEFAULT_ICONS. cbn [print_default_icons].
    unfold bind, print, emit, ret. cbn [snd]. unasked. }
  cbn [orb]. rewrite <- asked_preamble.
  pose proof (get_device_ip_outcome E a tr) as Hget.
  destruct (device_of E a tr) as [device|] eqn:Hdev.
  - apply unasked_asked.
    destruct (validate_ip_or_hostname device) eqn:Hval.
    + rewrite (main_after_address E a tr device Hld Hdev Hval).
      destruct (requested a) as [[|item items]|] eqn:Hreq.
      * cbn [snd]. unasked.
      * cbv zeta.
        pose proof (batch_unasked E device (item :: items)
                      (batch_start a tr device (item :: items))) as Hb.
        assert (Hs : grows_unasked (preamble a tr)
                       (batch_start a tr device (item :: items)))
          by (unfold batch_start; unasked).
        destruct (batch E device (item :: items) _) as [[oks | e] tr']; cbn [snd] in *.
        -- eapply unasked_trans; [exact (unasked_trans _ _ _ Hs Hb) | unasked].
        -- exact (unasked_trans _ _ _ Hs Hb).
      * cbn [snd].
        pose proof (add_icons_outcome (match icon a with Some l => l | None => [] end)
                      (if default_icons a then DEFAULT_ICONS else []) (preamble a tr))
          as Hadd.
        unfold requested in Hreq. rewrite Hreq in Hadd.
        destruct Hadd as (line & -> & _). cbn [snd]. unasked.
    + remember (main E a tr) as m eqn:Hm.
      unfold main in Hm. rewrite Hld in Hm. unfold bind at 1 in Hm.
      rewrite Hget, Hval in Hm. cbn [negb] in Hm.
      unfold bind, print, emit, ret in Hm. subst m. cbn [snd]. unasked.
  - pose proof (address_given_device E a tr Hdev) as Hng.
    rewrite asked_preamble, Hng, <- (get_device_ip_asked E a tr Hng).
    destruct Hget as [_ Hr]. f_equal.
    remember (main E a tr) as m eqn:Hm.
    unfold main in Hm. rewrite Hld in Hm. unfold bind at 1 in Hm.
    destruct (get_device_ip E a tr) as [[[device | code] | e] tr1];
      cbn [fst snd] in *; subst m.
    + destruct Hr as [Hr | [e Hr]]; discriminate.
    + reflexivity.
    + reflexivity.
Qed.
